(** * Task-execution core of the oracle node: fetchers, the bridge task and
      the job-spec controller

    A shallow embedding of
    - [core/services/job/fetchers.go] (package [job]: polymorphic decode of
      fetchers, propagation of the notifiee; package [pipeline]: the bridge
      task), and
    - the job-spec web controller (package [web]).

    Go values are modelled as follows.  An [error] is a term of the
    [github.com/pkg/errors] wrappers over package-level error variables;
    [nil] is [None].  A byte slice handed to [encoding/json] is represented
    by what the decoder's scanner makes of it: not JSON at all, or the JSON
    value it spells.  A Go map is a [gmap], with [None] for the nil map.
    Effects (identifier generation, the network, registry look-ups, the
    log) are threaded explicitly through a small state-and-trace monad. *)

From Stdlib Require Import ZArith Ascii String.
From stdpp Require Import gmap strings list.

Set Warnings "-register-all".

Local Open Scope string_scope.
Local Open Scope list_scope.

(** ** Errors ([github.com/pkg/errors]) *)

Module Errors.

(** Package-level error variables; Go compares them by identity. *)
Inductive sentinel :=
| ErrWrongInputCardinality   (* pipeline.ErrWrongInputCardinality *)
| ErrorNotFound.             (* orm.ErrorNotFound *)

Inductive error :=
| Sentinel (s : sentinel)
| New (msg : string)                    (* errors.New, or any error made on the spot *)
| Wrapf (cause : error) (msg : string)  (* errors.Wrapf *)
| WithStack (cause : error)             (* errors.WithStack *)
| SyntaxError                           (* *json.SyntaxError *)
| UnmarshalTypeError (field : string).  (* *json.UnmarshalTypeError *)

#[global] Instance sentinel_eq_dec : EqDecision sentinel.
Proof. solve_decision. Defined.

#[global] Instance error_eq_dec : EqDecision error.
Proof. solve_decision. Defined.

(** [errors.Cause]: strips the wrappers. *)
Fixpoint Cause (e : error) : error :=
  match e with
  | Wrapf c _ => Cause c
  | WithStack c => Cause c
  | _ => e
  end.

(** [errors.Cause(err)] on a possibly nil error. *)
Definition CauseOpt (err : option error) : option error := Cause <$> err.

(** Modelled from the spec: [withStack] is declared outside the sources at
    hand.  "Errors are always enriched with a call-site stack/context
    annotation when first produced": the deferred call annotates a non-nil
    error and leaves nil alone. *)
Definition withStack (err : option error) : option error := WithStack <$> err.

End Errors.

(** ** Package [pipeline]: the bridge task *)

Module Pipeline.
Import Errors.

(** [models.ID], observed only through [models.NewID]. *)
Definition ID := nat.

Definition bytes := list Byte.byte.

(** Values of type [interface{}] that travel through results and request
    bodies. *)
Inductive any :=
| Nil
| Bytes (bs : bytes)
| Str (s : string)
| Num (z : Z)
| Bool (b : bool)
| IDVal (id : ID).

(** [HttpRequestData]: a Go map, [None] when nil. *)
Abbreviation HttpRequestData := (option (gmap string any)).

Record Result := { Value : any; Error : option error }.

Record Config := { DefaultHTTPTimeout : Z }.

(** [url.URL], [models.WebURL]: conversions between them keep the value. *)
Definition URL := string.

Record BridgeType := { BridgeURL : URL }.

(** The [ORM] collaborator: [FindBridge] returns Go's pair. *)
Record ORM := { FindBridge : string -> BridgeType * option error }.

(** Embedded base fields; declared elsewhere, never read by [Run]. *)
Inductive BaseTask := BaseTaskFields (fields : list (string * any)).

Module HTTPTask.
Record t := {
  URL : URL;
  Method : string;
  RequestData : HttpRequestData;
  AllowUnrestrictedNetworkAccess : bool;
  config : Config
}.
End HTTPTask.

(** What a run leaves behind, in order. *)
Inductive Event :=
| EvFindBridge (name : string)                         (* registry look-up *)
| EvNewID (id : ID)                                    (* models.NewID *)
| EvHTTPRun (h : HTTPTask.t) (inputs : list Result)    (* delegated stage *)
| EvDebugw (msg : string) (answer : bytes) (url : URL) (* logger.Debugw *).

(** The world outside the task: the identifier supply and the network. *)
Record World := {
  next_id : ID;
  network : HTTPTask.t -> error + bytes
}.

(** State and trace. *)
Definition M (A : Type) : Type := World -> A * World * list Event.

Definition ret {A} (a : A) : M A := fun w => (a, w, []).

Definition bind {A B} (m : M A) (k : A -> M B) : M B :=
  fun w =>
    let '(a, w1, ev1) := m w in
    let '(b, w2, ev2) := k a w1 in
    (b, w2, ev1 ++ ev2).

Definition emit (e : Event) : M unit := fun w => (tt, w, [e]).

Notation "x <- m ;; k" := (bind m (fun x => k))
  (at level 100, m at next level, right associativity).
Notation "m ;;; k" := (bind m (fun _ => k))
  (at level 100, right associativity).

(** Modelled from the spec: [models.NewID] is declared outside the sources
    at hand.  The identifier is "always freshly generated per invocation,
    never reused or cached": the supply hands out the next unused one. *)
Definition NewID : M ID :=
  fun w => (next_id w,
            {| next_id := S (next_id w); network := network w |},
            [EvNewID (next_id w)]).

(** Modelled from the spec: [HTTPTask.Run] is declared outside the sources
    at hand.  The stage "perform[s] a network request and return[s] raw
    bytes"; a network failure is "surfaced as the Result's Error". *)
Definition HTTPTask_Run (h : HTTPTask.t) (inputs : list Result) : M Result :=
  emit (EvHTTPRun h inputs) ;;;
  fun w =>
    match network w h with
    | inl e => ({| Value := Nil; Error := Some e |}, w, [])
    | inr bs => ({| Value := Bytes bs; Error := None |}, w, [])
    end.

(** A call either returns or panics (a failed type assertion). *)
Inductive Outcome :=
| Returned (r : Result)
| Panicked.

Module BridgeTask.
Record t := {
  BaseTask : BaseTask;
  Name : string;
  RequestData : HttpRequestData;
  orm : ORM;
  config : Config
}.

(** [func (t BridgeTask) getBridgeURLFromName() (url.URL, error)] *)
Definition getBridgeURLFromName (tk : t) : M (URL * option error) :=
  emit (EvFindBridge (Name tk)) ;;;
  let '(bridge, err) := FindBridge (orm tk) (Name tk) in
  match err with
  | Some e => ret ("", Some e)
  | None => ret (BridgeURL bridge, None)
  end.

(** Assignment to the field [t.RequestData]. *)
Definition setRequestData (tk : t) (d : HttpRequestData) : t :=
  {| BaseTask := BaseTask tk; Name := Name tk; RequestData := d;
     orm := orm tk; config := config tk |}.

(** [func (t *BridgeTask) Run(inputs []Result) (result Result)].  The
    receiver is a pointer: the task as [Run] leaves it is returned next
    to the outcome. *)
Definition Run (tk : t) (inputs : list Result) : M (t * Outcome) :=
  if (0 <? length inputs)%nat then
    ret (tk, Returned {| Value := Nil;
                         Error := Some (Wrapf (Sentinel ErrWrongInputCardinality)
                                              "BridgeTask requires 0 inputs") |})
  else
    r <- getBridgeURLFromName tk ;;
    let '(url, err) := r in
    match err with
    | Some e => ret (tk, Returned {| Value := Nil; Error := Some e |})
    | None =>
        (* if t.RequestData == nil { t.RequestData = HttpRequestData{} } *)
        let tk1 := match RequestData tk with
                   | None => setRequestData tk (Some ∅)
                   | Some _ => tk
                   end in
        (* t.RequestData["id"] = models.NewID() *)
        id <- NewID ;;
        let tk2 := setRequestData tk1 (insert "id" (IDVal id) <$> RequestData tk1) in
        result <- HTTPTask_Run
                    {| HTTPTask.URL := url;
                       HTTPTask.Method := "POST";
                       HTTPTask.RequestData := RequestData tk2;
                       HTTPTask.AllowUnrestrictedNetworkAccess := true;
                       HTTPTask.config := config tk2 |}
                    inputs ;;
        match Error result with
        | Some _ => ret (tk2, Returned result)
        | None =>
            (* string(result.Value.([]byte)) *)
            match Value result with
            | Bytes answer =>
                emit (EvDebugw "Bridge: fetched answer" answer url) ;;;
                ret (tk2, Returned result)
            | _ => ret (tk2, Panicked)
            end
        end
    end.
End BridgeTask.

(** *** Vocabulary for the properties of [BridgeTask.Run] *)

(** The body sent out by a run that starts in world [w]. *)
Definition augmented (tk : BridgeTask.t) (w : World) : gmap string any :=
  <["id" := IDVal (next_id w)]> (default ∅ (BridgeTask.RequestData tk)).

(** The HTTP stage a run builds once the bridge is resolved to [url]. *)
Definition delegate (tk : BridgeTask.t) (w : World) (url : URL) : HTTPTask.t :=
  {| HTTPTask.URL := url;
     HTTPTask.Method := "POST";
     HTTPTask.RequestData := Some (augmented tk w);
     HTTPTask.AllowUnrestrictedNetworkAccess := true;
     HTTPTask.config := BridgeTask.config tk |}.

(** The world once an identifier has been drawn. *)
Definition drawn (w : World) : World :=
  {| next_id := S (next_id w); network := network w |}.

Definition cardinalityError : error :=
  Wrapf (Sentinel ErrWrongInputCardinality) "BridgeTask requires 0 inputs".

(** The task as a call of [Run] leaves it, and the trace of the call. *)
Definition taskAfter (tk : BridgeTask.t) (inputs : list Result) (w : World)
  : BridgeTask.t := (BridgeTask.Run tk inputs w).1.1.1.

Definition traceOf (tk : BridgeTask.t) (inputs : list Result) (w : World)
  : list Event := (BridgeTask.Run tk inputs w).2.

(** The HTTP stages a trace shows as delegated to, in order. *)
Definition delegations (evs : list Event) : list HTTPTask.t :=
  omap (fun ev => match ev with EvHTTPRun h _ => Some h | _ => None end) evs.

(** The identifiers a trace shows as generated, in order. *)
Definition generated (evs : list Event) : list ID :=
  omap (fun ev => match ev with EvNewID id => Some id | _ => None end) evs.

(** The three ways a run with no inputs can go. *)
Inductive RunCase (tk : BridgeTask.t) (w : World)
  : BridgeTask.t * Outcome * World * list Event -> Prop :=
| LookupFailed bridge e :
    FindBridge (BridgeTask.orm tk) (BridgeTask.Name tk) = (bridge, Some e) ->
    RunCase tk w
      ((tk, Returned {| Value := Nil; Error := Some e |}), w,
       [EvFindBridge (BridgeTask.Name tk)])
| NetworkFailed bridge e :
    FindBridge (BridgeTask.orm tk) (BridgeTask.Name tk) = (bridge, None) ->
    network w (delegate tk w (BridgeURL bridge)) = inl e ->
    RunCase tk w
      ((BridgeTask.setRequestData tk (Some (augmented tk w)),
        Returned {| Value := Nil; Error := Some e |}),
       drawn w,
       [EvFindBridge (BridgeTask.Name tk); EvNewID (next_id w);
        EvHTTPRun (delegate tk w (BridgeURL bridge)) []])
| Fetched bridge answer :
    FindBridge (BridgeTask.orm tk) (BridgeTask.Name tk) = (bridge, None) ->
    network w (delegate tk w (BridgeURL bridge)) = inr answer ->
    RunCase tk w
      ((BridgeTask.setRequestData tk (Some (augmented tk w)),
        Returned {| Value := Bytes answer; Error := None |}),
       drawn w,
       [EvFindBridge (BridgeTask.Name tk); EvNewID (next_id w);
        EvHTTPRun (delegate tk w (BridgeURL bridge)) [];
        EvDebugw "Bridge: fetched answer" answer (BridgeURL bridge)]).

(** An example registry, task and world: one bridge, no declared request
    data, a network that answers every request with an empty body. *)
Definition exampleORM : ORM :=
  {| FindBridge := fun name =>
       if bool_decide (name = "adapter")
       then ({| BridgeURL := "http://adapter.example/" |}, None)
       else ({| BridgeURL := "" |}, Some (Sentinel ErrorNotFound)) |}.

Definition exampleTask : BridgeTask.t :=
  {| BridgeTask.BaseTask := BaseTaskFields [];
     BridgeTask.Name := "adapter";
     BridgeTask.RequestData := None;
     BridgeTask.orm := exampleORM;
     BridgeTask.config := {| DefaultHTTPTimeout := 15 |} |}.

Definition exampleWorld : World :=
  {| next_id := 0; network := fun _ => inr [] |}.

(** The outcome of a call of [Run] and the world it leaves. *)
Definition outcomeOf (tk : BridgeTask.t) (inputs : list Result) (w : World)
  : Outcome := (BridgeTask.Run tk inputs w).1.1.2.

Definition worldAfter (tk : BridgeTask.t) (inputs : list Result) (w : World)
  : World := (BridgeTask.Run tk inputs w).1.2.

(** The answers and URLs a trace shows as logged, in order. *)
Definition logged (evs : list Event) : list (bytes * URL) :=
  omap (fun ev => match ev with EvDebugw _ answer url => Some (answer, url) | _ => None end)
       evs.

(** A task naming a bridge the example registry does not hold, a task that
    declares request data with an "id" of its own, and a world whose network
    refuses every request. *)
Definition strayTask : BridgeTask.t :=
  {| BridgeTask.BaseTask := BaseTaskFields [];
     BridgeTask.Name := "unknown";
     BridgeTask.RequestData := None;
     BridgeTask.orm := exampleORM;
     BridgeTask.config := {| DefaultHTTPTimeout := 15 |} |}.

Definition declaringTask : BridgeTask.t :=
  {| BridgeTask.BaseTask := BaseTaskFields [];
     BridgeTask.Name := "adapter";
     BridgeTask.RequestData := Some (<["id" := Str "mine"]> (<["pair" := Str "ETH/USD"]> ∅));
     BridgeTask.orm := exampleORM;
     BridgeTask.config := {| DefaultHTTPTimeout := 15 |} |}.

Definition offlineWorld : World :=
  {| next_id := 4; network := fun _ => inl (New "connection refused") |}.

End Pipeline.

(** ** Package [job]: fetchers *)

Module Job.
Import Errors.

(** *** JSON as [encoding/json] reads it *)

Inductive json :=
| JNull
| JBool (b : bool)
| JNumber (literal : string)
| JString (s : string)
| JArray (elems : list json)
| JObject (fields : list (string * json)).

(** A byte slice given to [json.Unmarshal]: invalid, or the value spelled. *)
Inductive document :=
| NotJSON
| Doc (j : json).

(** ASCII case folding, as the decoder matches object keys to field names
    made of letters only. *)
Definition fold_ascii (c : ascii) : ascii :=
  let n := nat_of_ascii c in
  if ((65 <=? n) && (n <=? 90))%nat then ascii_of_nat (n + 32) else c.

Fixpoint fold_string (s : string) : string :=
  match s with
  | EmptyString => EmptyString
  | String c s' => String (fold_ascii c) (fold_string s')
  end.

Definition equalFold (key field : string) : bool :=
  bool_decide (fold_string key = fold_string field).

(** *** Fetcher types *)

Definition FetcherType := string.
Definition FetcherTypeBridge : FetcherType := "bridge".
Definition FetcherTypeHttp : FetcherType := "http".
Definition FetcherTypeMedian : FetcherType := "median".

(** A [Notifiee] interface value; [None] is nil. *)
Definition Notifiee := option nat.

(** Modelled from the spec: the [Transformer] interface and its
    implementations are declared outside the sources at hand.  A
    transformer is a stage that may own further transformers, and the sink
    is handed "recursively through its owned Transformers": its
    [SetNotifiee] follows the pattern of [BaseFetcher.SetNotifiee]. *)
Inductive Transformer :=
| mkTransformer (notifiee : Notifiee) (owned : list Transformer).

(** A stage is named by its position under the stage at hand: [[]] is
    that stage itself, [[i]] its [i]-th transformer, [[i; j]] that one's
    [j]-th. *)
Definition path := list nat.

(** [transformer.SetNotifiee(n)]: the transformer as the call leaves it,
    and the log of the stages whose notifiee field it assigned, in order. *)
Fixpoint Transformer_SetNotifiee (n : Notifiee) (t : Transformer)
  : Transformer * list path :=
  match t with
  | mkTransformer _ owned =>
      let '(owned', log) :=
        (fix each (i : nat) (ts : list Transformer) : list Transformer * list path :=
           match ts with
           | [] => ([], [])
           | t' :: rest =>
               let '(t'', l1) := Transformer_SetNotifiee n t' in
               let '(rest', l2) := each (S i) rest in
               (t'' :: rest', (cons i <$> l1) ++ l2)
           end) 0%nat owned in
      (mkTransformer n owned', [] :: log)
  end.

(** [for _, transformer := range ts { transformer.SetNotifiee(n) }], the
    elements being numbered from [i]. *)
Fixpoint range_SetNotifiee (n : Notifiee) (i : nat) (ts : list Transformer)
  : list Transformer * list path :=
  match ts with
  | [] => ([], [])
  | t :: rest =>
      let '(t', l1) := Transformer_SetNotifiee n t in
      let '(rest', l2) := range_SetNotifiee n (S i) rest in
      (t' :: rest', (cons i <$> l1) ++ l2)
  end.

Record BaseFetcher := {
  ID : Z;
  Transformers : list Transformer;
  OffchainReportingJobID : string;
  FluxMonitorJobID : string;
  DirectRequestJobID : string;
  notifiee : Notifiee
}.

(** [func (f BaseFetcher) GetID() uint64] *)
Definition GetID (f : BaseFetcher) : Z := ID f.

(** [func (f *BaseFetcher) SetNotifiee(n Notifiee)]: the fetcher as the
    call leaves it, and the stages assigned, in order. *)
Definition SetNotifiee (f : BaseFetcher) (n : Notifiee) : BaseFetcher * list path :=
  let '(ts, log) := range_SetNotifiee n 0 (Transformers f) in
  ({| ID := ID f;
      Transformers := ts;
      OffchainReportingJobID := OffchainReportingJobID f;
      FluxMonitorJobID := FluxMonitorJobID f;
      DirectRequestJobID := DirectRequestJobID f;
      notifiee := n |},
   [] :: log).

(** The notifiee held by the stage at a position, if there is a stage
    there. *)
Fixpoint notifiee_in (t : Transformer) (p : path) : option Notifiee :=
  match t, p with
  | mkTransformer n _, [] => Some n
  | mkTransformer _ owned, i :: p' =>
      match nth_error owned i with
      | Some t' => notifiee_in t' p'
      | None => None
      end
  end.

Definition notifiee_among (ts : list Transformer) (p : path) : option Notifiee :=
  match p with
  | [] => None
  | i :: p' =>
      match nth_error ts i with
      | Some t => notifiee_in t p'
      | None => None
      end
  end.

Definition notifiee_at (f : BaseFetcher) (p : path) : option Notifiee :=
  match p with
  | [] => Some (notifiee f)
  | _ => notifiee_among (Transformers f) p
  end.

(** How many times a log names a stage. *)
Definition visits (log : list path) (p : path) : nat :=
  length (filter (fun q => q = p) log).

(** One for a position that holds a stage, zero otherwise. *)
Definition once (o : option Notifiee) : nat :=
  match o with Some _ => 1 | None => 0 end.

(** What [SetNotifiee] does below a transformer. *)
Definition reached (t : Transformer) : Prop :=
  forall n p,
    visits (Transformer_SetNotifiee n t).2 p = once (notifiee_in t p)
    /\ notifiee_in (Transformer_SetNotifiee n t).1 p = (fun _ => n) <$> notifiee_in t p.

(** An example fetcher: two transformers, the second owning two more, one
    of which owns another. *)
Definition exampleFetcher : BaseFetcher :=
  {| ID := 7;
     Transformers :=
       [ mkTransformer None [];
         mkTransformer None
           [ mkTransformer (Some 1%nat) [];
             mkTransformer None [ mkTransformer None [] ] ] ];
     OffchainReportingJobID := "";
     FluxMonitorJobID := "";
     DirectRequestJobID := "";
     notifiee := None |}.

(** *** Polymorphic decode *)

(** The concrete fetcher structs ([BridgeFetcher], [HttpFetcher],
    [MedianFetcher]) are declared outside the sources at hand: the types
    and what [json.Unmarshal] makes of a document for each are taken as an
    interface. *)
Class FetcherVariants := {
  BridgeFetcher : Type;
  HttpFetcher : Type;
  MedianFetcher : Type;
  unmarshalBridge : document -> error + BridgeFetcher;
  unmarshalHttp : document -> error + HttpFetcher;
  unmarshalMedian : document -> error + MedianFetcher
}.

(** [json.Unmarshal(bs, &header)] for
    [var header struct { Type FetcherType `json:"type"` }]: the keys of an
    object are taken in order, a key matching the field sets it from a
    string, leaves it on [null] and records a type error otherwise; the
    first recorded error is the one returned. *)
Definition headerField (acc : FetcherType * option error) (kv : string * json)
  : FetcherType * option error :=
  let '(ty, err) := acc in
  let '(k, v) := kv in
  if equalFold k "type" then
    match v with
    | JString s => (s, err)
    | JNull => (ty, err)
    | _ => (ty, match err with
                | Some e => Some e
                | None => Some (UnmarshalTypeError "type")
                end)
    end
  else (ty, err).

Definition unmarshalHeader (bs : document) : FetcherType * option error :=
  match bs with
  | NotJSON => ("", Some SyntaxError)
  | Doc JNull => ("", None)
  | Doc (JObject fields) => fold_left headerField fields ("", None)
  | Doc _ => ("", Some (UnmarshalTypeError ""))
  end.

(** [json.Unmarshal(bs, &spec)] for [var spec []json.RawMessage]. *)
Definition unmarshalRawMessages (bs : document) : list document * option error :=
  match bs with
  | NotJSON => ([], Some SyntaxError)
  | Doc JNull => ([], None)
  | Doc (JArray elems) => (Doc <$> elems, None)
  | Doc _ => ([], Some (UnmarshalTypeError ""))
  end.

Section Decode.
Context `{FetcherVariants}.

(** The dynamic value behind a [Fetcher] interface. *)
Inductive FetcherImpl :=
| FBridge (b : BridgeFetcher)
| FHttp (h : HttpFetcher)
| FMedian (m : MedianFetcher).

(** A [Fetcher] interface value; [None] is nil. *)
Definition Fetcher := option FetcherImpl.

(** [type Fetchers []Fetcher] *)
Definition Fetchers := list Fetcher.

(** [func UnmarshalFetcherJSON(bs []byte) (_ Fetcher, err error)] *)
Definition UnmarshalFetcherJSON (bs : document) : Fetcher * option error :=
  let '(fetcher, err) :=
    let '(header, err) := unmarshalHeader bs in
    match err with
    | Some e => (None, Some e)
    | None =>
        if bool_decide (header = FetcherTypeBridge) then
          match unmarshalBridge bs with
          | inl e => (None, Some e)
          | inr bridgeFetcher => (Some (FBridge bridgeFetcher), None)
          end
        else if bool_decide (header = FetcherTypeHttp) then
          match unmarshalHttp bs with
          | inl e => (None, Some e)
          | inr httpFetcher => (Some (FHttp httpFetcher), None)
          end
        else if bool_decide (header = FetcherTypeMedian) then
          match unmarshalMedian bs with
          | inl e => (None, Some e)
          | inr medianFetcher => (Some (FMedian medianFetcher), None)
          end
        else (None, Some (New "unknown fetcher type"))
    end in
  (* defer withStack(&err) *)
  (fetcher, withStack err).

(** The loop of [Fetchers.UnmarshalJSON] over the raw messages: the
    receiver as it stands, and the error returned from inside the loop. *)
Fixpoint decodeEach (f : Fetchers) (spec : list document) : Fetchers * option error :=
  match spec with
  | [] => (f, None)
  | fetcherBytes :: rest =>
      let '(fetcher, err) := UnmarshalFetcherJSON fetcherBytes in
      match err with
      | Some e => (f, Some e)
      | None => decodeEach (f ++ [fetcher]) rest   (* the receiver gains [fetcher] *)
      end
  end.

(** [func (f *Fetchers) UnmarshalJSON(bs []byte) (err error)]: the
    receiver as the call leaves it, and the error. *)
Definition UnmarshalJSON (f : Fetchers) (bs : document) : Fetchers * option error :=
  let '(f', err) :=
    let '(spec, err) := unmarshalRawMessages bs in
    match err with
    | Some e => (f, Some e)
    | None => decodeEach f spec
    end in
  (* defer withStack(&err) *)
  (f', withStack err).

End Decode.

(** An example family of fetcher structs: each variant holds just the base
    fields, and a document decodes into it when it is an object (or null). *)
Definition zeroBaseFetcher : BaseFetcher :=
  {| ID := 0; Transformers := [];
     OffchainReportingJobID := ""; FluxMonitorJobID := "";
     DirectRequestJobID := ""; notifiee := None |}.

Definition exampleUnmarshal (bs : document) : error + BaseFetcher :=
  match bs with
  | NotJSON => inl SyntaxError
  | Doc JNull => inr zeroBaseFetcher
  | Doc (JObject _) => inr zeroBaseFetcher
  | Doc _ => inl (UnmarshalTypeError "")
  end.

Definition exampleVariants : FetcherVariants :=
  {| BridgeFetcher := BaseFetcher;
     HttpFetcher := BaseFetcher;
     MedianFetcher := BaseFetcher;
     unmarshalBridge := exampleUnmarshal;
     unmarshalHttp := exampleUnmarshal;
     unmarshalMedian := exampleUnmarshal |}.

(** [{"type": "bridge"}], [{"type": "http"}], [{"type": "nonsense"}] and
    [{"type": "other"}]. *)
Definition bridgeDoc : json := JObject [("type", JString "bridge")].
Definition httpDoc : json := JObject [("type", JString "http")].
Definition nonsenseDoc : json := JObject [("type", JString "nonsense")].
Definition otherDoc : json := JObject [("type", JString "other")].

End Job.

(** ** Package [web]: the job-spec controller *)

Module Web.
Import Errors.

(** [net/http] status codes used by the controller. *)
Definition StatusOK : Z := 200.
Definition StatusNoContent : Z := 204.
Definition StatusBadRequest : Z := 400.
Definition StatusNotFound : Z := 404.
Definition StatusUnprocessableEntity : Z := 422.
Definition StatusInternalServerError : Z := 500.
Definition StatusNotImplemented : Z := 501.

(** Package [models] is outside the sources at hand: its types and the
    functions the controller calls are taken as an interface. *)
Class Models := {
  JobSpec : Type;
  JobSpecRequest : Type;
  Initiator : Type;
  JobID : Type;                                       (* models.ID *)
  zeroJobSpec : JobSpec;                              (* models.JobSpec{} *)
  InitiatorFluxMonitor : string;
  NewJobFromRequest : JobSpecRequest -> JobSpec;
  InitiatorsFor : JobSpec -> string -> list Initiator;
  NewIDFromString : string -> error + JobID
}.

(** [strconv.Atoi]: an optional sign and decimal digits, within [int]. *)
Definition digit (c : ascii) : option Z :=
  let n := nat_of_ascii c in
  if ((48 <=? n) && (n <=? 57))%nat then Some (Z.of_nat n - 48)%Z else None.

Fixpoint digits (s : string) (acc : Z) : option Z :=
  match s with
  | EmptyString => Some acc
  | String c s' =>
      match digit c with
      | Some d => digits s' (10 * acc + d)%Z
      | None => None
      end
  end.

Definition Atoi (s : string) : Z * option error :=
  let '(neg, body) :=
    match s with
    | String "-" r => (true, r)
    | String "+" r => (false, r)
    | _ => (false, s)
    end in
  match body with
  | EmptyString => (0%Z, Some (New "strconv.Atoi: invalid syntax"))
  | _ =>
      match digits body 0 with
      | None => (0%Z, Some (New "strconv.Atoi: invalid syntax"))
      | Some n =>
          let v := if neg then (- n)%Z else n in
          if ((v <? - 2 ^ 63) || (2 ^ 63 - 1 <? v))%Z
          then ((if neg then - 2 ^ 63 else 2 ^ 63 - 1)%Z,
                Some (New "strconv.Atoi: value out of range"))
          else (v, None)
      end
  end.

(** The conversion [int32(jobID)]: the low 32 bits, signed. *)
Definition int32 (z : Z) : Z := ((z + 2 ^ 31) mod 2 ^ 32 - 2 ^ 31)%Z.

Section Controller.
Context `{Models}.

(** What the controller reaches through [jsc.App]: the configuration
    flags and the collaborators acting on the store. *)
Record Application := {
  Dev : bool;
  FeatureFluxMonitor : bool;
  FeatureOffchainReporting : bool;
  ValidateJob : JobSpec -> option error;              (* services.ValidateJob(js, store) *)
  NotifyExternalInitiator : JobSpec -> option error;
  AddJob : JobSpec -> option error;
  ArchiveJob : JobID -> option error;
  DeleteJobV2 : Z -> option error
}.

(** The parts of [*gin.Context] read by the controller. *)
Record Context := {
  ShouldBindJSON : error + JobSpecRequest;
  Param : string -> string
}.

Inductive Payload :=
| PayloadError (e : error)
| PayloadJob (js : JobSpec)
| PayloadNil.

Record Response := { status : Z; payload : Payload }.

(** Modelled from the spec: the response helpers are declared outside
    the sources at hand; each writes the given status ("response status
    501 on feature-gated rejection, 404 on missing ID") and payload. *)
Definition jsonAPIError (httpStatus : Z) (err : error) : Response :=
  {| status := httpStatus; payload := PayloadError err |}.

Definition jsonAPIResponse (js : JobSpec) : Response :=
  {| status := StatusOK; payload := PayloadJob js |}.

Definition jsonAPIResponseWithStatus (p : Payload) (httpStatus : Z) : Response :=
  {| status := httpStatus; payload := p |}.

(** [func (jsc *JobSpecsController) requireImplemented(js models.JobSpec) error] *)
Definition requireImplemented (app : Application) (js : JobSpec) : option error :=
  if negb (Dev app) && negb (FeatureFluxMonitor app) then
    let intrs := InitiatorsFor js InitiatorFluxMonitor in
    if (0 <? length intrs)%nat
    then Some (New "The Flux Monitor feature is disabled by configuration")
    else None
  else None.

(** [func (jsc *JobSpecsController) getAndCheckJobSpec(c *gin.Context)
     (js models.JobSpec, httpStatus int, err error)] *)
Definition getAndCheckJobSpec (app : Application) (c : Context)
  : JobSpec * Z * option error :=
  match ShouldBindJSON c with
  | inl err => (zeroJobSpec, StatusBadRequest, Some err)
  | inr jsr =>
      let js := NewJobFromRequest jsr in
      match requireImplemented app js with
      | Some err => (zeroJobSpec, StatusNotImplemented, Some err)
      | None =>
          match ValidateJob app js with
          | Some err => (zeroJobSpec, StatusBadRequest, Some err)
          | None => (js, 0%Z, None)
          end
      end
  end.

(** [func (jsc *JobSpecsController) Create(c *gin.Context)] *)
Definition Create (app : Application) (c : Context) : Response :=
  let '(js, httpStatus, err) := getAndCheckJobSpec app c in
  match err with
  | Some e => jsonAPIError httpStatus e
  | None =>
      match NotifyExternalInitiator app js with
      | Some e => jsonAPIError StatusInternalServerError e
      | None =>
          match AddJob app js with
          | Some e => jsonAPIError StatusInternalServerError e
          | None => jsonAPIResponse js
          end
      end
  end.

(** [func (jsc *JobSpecsController) Destroy(c *gin.Context)] *)
Definition Destroy (app : Application) (c : Context) : Response :=
  match NewIDFromString (Param c "SpecID") with
  | inl err => jsonAPIError StatusUnprocessableEntity err
  | inr id =>
      let err := ArchiveJob app id in
      if bool_decide (CauseOpt err = Some (Sentinel ErrorNotFound)) then
        jsonAPIError StatusNotFound (New "JobSpec not found")
      else
        match err with
        | Some e => jsonAPIError StatusInternalServerError e
        | None => jsonAPIResponseWithStatus PayloadNil StatusNoContent
        end
  end.

(** [func (jsc *JobSpecsController) DestroyV2(c *gin.Context)] *)
Definition DestroyV2 (app : Application) (c : Context) : Response :=
  let '(jobID, err) := Atoi (Param c "SpecID") in
  match err with
  | Some e => jsonAPIError StatusUnprocessableEntity e
  | None =>
      let err := DeleteJobV2 app (int32 jobID) in
      if bool_decide (CauseOpt err = Some (Sentinel ErrorNotFound)) then
        jsonAPIError StatusNotFound (New "JobSpec not found")
      else
        match err with
        | Some e => jsonAPIError StatusInternalServerError e
        | None => jsonAPIResponseWithStatus PayloadNil StatusNoContent
        end
  end.

End Controller.

(** An example of package [models]: a job spec is the list of its
    initiators' types, and an identifier any non-empty string. *)
Definition exampleModels : Models :=
  {| JobSpec := list string;
     JobSpecRequest := list string;
     Initiator := string;
     JobID := string;
     zeroJobSpec := [];
     InitiatorFluxMonitor := "fluxmonitor";
     NewJobFromRequest := fun jsr => jsr;
     InitiatorsFor := fun js ty => filter (fun i => i = ty) js;
     NewIDFromString := fun s =>
       match s with
       | EmptyString => inl (New "invalid id")
       | _ => inr s
       end |}.

(** An example application: validation rejects a job without initiators;
    the store holds the jobs "job-1" and 1, fails on "broken" and 13, and
    reports anything else as not found. *)
Definition exampleApp (dev fluxMonitor : bool) : @Application exampleModels :=
  {| Dev := dev;
     FeatureFluxMonitor := fluxMonitor;
     FeatureOffchainReporting := false;
     ValidateJob := fun js : @JobSpec exampleModels =>
       match js with
       | [] => Some (New "Must have at least one Initiator and one Task")
       | _ => None
       end;
     NotifyExternalInitiator := fun _ => None;
     AddJob := fun _ => None;
     ArchiveJob := fun id : @JobID exampleModels =>
       if bool_decide (id = "job-1") then None
       else if bool_decide (id = "broken") then Some (New "connection refused")
       else Some (Wrapf (Sentinel ErrorNotFound) "archive job");
     DeleteJobV2 := fun id =>
       if bool_decide (id = 1%Z) then None
       else if bool_decide (id = 13%Z) then Some (New "connection refused")
       else Some (WithStack (Sentinel ErrorNotFound)) |}.

(** A request carrying the given job-spec body and [:SpecID]. *)
Definition exampleContext (jsr : list string) (specID : string)
  : @Context exampleModels :=
  @Build_Context exampleModels (inr jsr) (fun _ => specID).

(** *** The rest of the controller: listing, showing, V2 creation *)

(** [orm.SortType] *)
Inductive SortType :=
| Ascending
| Descending.

(** Packages [presenters], [assets], [offchainreporting] and the TOML
    decoder are outside the sources at hand: what the controller uses of
    them is taken as an interface. *)
Class Specs `{Models} := {
  JobSpecError : Type;
  Link : Type;                                        (* assets.Link *)
  Errors : JobSpec -> list JobSpecError;              (* the field job.Errors *)
  OracleSpec : Type;                                  (* offchainreporting.OracleSpec *)
  JobType : OracleSpec -> string;                     (* js.JobType() *)
  OffchainReportingJobType : string;                  (* offchainreporting.JobType *)
  tomlUnmarshal : string -> error + OracleSpec        (* toml.Unmarshal(body, &spec) *)
}.

Section ControllerRest.
Context `{Specs}.

(** [presenters.JobSpec]; a field left out of the literal is nil. *)
Record PresentedJobSpec := {
  Job : JobSpec;
  JobErrors : list JobSpecError;
  Earnings : option Link
}.

(** What else the controller reaches through [jsc.App] and its store, each
    returning Go's tuple.  A [job.Spec] interface value is [None] when nil. *)
Record Backend := {
  JobsSorted : SortType -> Z -> Z -> list JobSpec * Z * option error;
  FindJobWithErrors : JobID -> JobSpec * option error;
  LinkEarnedFor : JobSpec -> option Link * option error;
  AddJobV2 : option OracleSpec -> Z * option error
}.

(** The further parts of [*gin.Context] read by the controller:
    [c.Query] and [ioutil.ReadAll(c.Request.Body)]. *)
Record Request := {
  Query : string -> string;
  ReadAllBody : string * option error
}.

(** What is written to the client.  [paginatedResponse] is declared outside
    the sources at hand: its arguments are kept as they are passed. *)
Inductive Reply :=
| ReplyError (httpStatus : Z) (err : error)                (* jsonAPIError *)
| ReplyJob (p : PresentedJobSpec)                          (* jsonAPIResponse, 200 *)
| ReplyJobID (jobID : Z)                                   (* c.JSON(http.StatusOK, ...) *)
| ReplyPage (name : string) (size page : Z) (pjs : list PresentedJobSpec)
            (count : Z) (err : option error).              (* paginatedResponse *)

(** [func (jsc *JobSpecsController) Index(c *gin.Context, size, page, offset int)] *)
Definition Index (b : Backend) (c : Request) (size page offset : Z) : Reply :=
  let order :=
    if bool_decide (Query c "sort" = "-createdAt") then Descending else Ascending in
  let '(jobs, count, err) := JobsSorted b order offset size in
  let pjs := (fun j => {| Job := j; JobErrors := []; Earnings := None |}) <$> jobs in
  ReplyPage "Jobs" size page pjs count err.

(** [func (jsc *JobSpecsController) requireImplementedV2(js job.Spec) error] *)
Definition requireImplementedV2 (app : Application) (js : OracleSpec) : option error :=
  if bool_decide (JobType js = OffchainReportingJobType)
     && negb (Dev app) && negb (FeatureOffchainReporting app)
  then Some (New "The Offchain Reporting feature is disabled by configuration")
  else None.

(** [func (jsc *JobSpecsController) getAndCheckJobSpecV2(c *gin.Context)
     (js job.Spec, httpStatus int, err error)] *)
Definition getAndCheckJobSpecV2 (app : Application) (c : Request)
  : option OracleSpec * Z * option error :=
  let '(body, err) := ReadAllBody c in
  match err with
  | Some e => (None, StatusInternalServerError, Some e)
  | None =>
      match tomlUnmarshal body with
      | inl e => (None, StatusBadRequest, Some e)
      | inr spec =>
          match requireImplementedV2 app spec with
          | Some e => (None, StatusNotImplemented, Some e)
          | None => (Some spec, 0%Z, None)
          end
      end
  end.

(** [func (jsc *JobSpecsController) CreateV2(c *gin.Context)] *)
Definition CreateV2 (app : Application) (b : Backend) (c : Request) : Reply :=
  let '(js, httpStatus, err) := getAndCheckJobSpecV2 app c in
  match err with
  | Some e => ReplyError httpStatus e
  | None =>
      let '(jobID, err) := AddJobV2 b js in
      match err with
      | Some e => ReplyError StatusInternalServerError e
      | None => ReplyJobID jobID
      end
  end.

(** [func showJobPresenter(jsc *JobSpecsController, job models.JobSpec)
     presenters.JobSpec] *)
Definition showJobPresenter (b : Backend) (job : JobSpec) : PresentedJobSpec :=
  let '(jobLinkEarned, _) := LinkEarnedFor b job in
  {| Job := job; JobErrors := Errors job; Earnings := jobLinkEarned |}.

(** [func (jsc *JobSpecsController) Show(c *gin.Context)] *)
Definition Show (b : Backend) (c : Context) : Reply :=
  match NewIDFromString (Param c "SpecID") with
  | inl err => ReplyError StatusUnprocessableEntity err
  | inr id =>
      let '(j, err) := FindJobWithErrors b id in
      if bool_decide (CauseOpt err = Some (Sentinel ErrorNotFound)) then
        ReplyError StatusNotFound (New "JobSpec not found")
      else
        match err with
        | Some e => ReplyError StatusInternalServerError e
        | None => ReplyJob (showJobPresenter b j)
        end
  end.

End ControllerRest.

(** An example of the further packages: an oracle spec is its job type, the
    TOML decoder reads the type off a body that is not empty, a job carries
    no errors. *)
Definition exampleSpecs : @Specs exampleModels :=
  {| JobSpecError := string;
     Link := Z;
     Errors := fun _ => [];
     OracleSpec := string;
     JobType := fun spec => spec;
     OffchainReportingJobType := "offchainreporting";
     tomlUnmarshal := fun body =>
       match body with
       | EmptyString => inl (New "toml: empty document")
       | _ => inr body
       end |}.

(** An example backend: the store holds "job-1", fails on "broken", lists
    its jobs newest first on request, and numbers V2 jobs from 1. *)
Definition exampleBackend : @Backend exampleModels exampleSpecs :=
  @Build_Backend exampleModels exampleSpecs
    (fun order _ _ =>
       match order with
       | Ascending => ([["web"]; ["cron"]], 2%Z, None)
       | Descending => ([["cron"]; ["web"]], 2%Z, None)
       end)
    (fun id : string =>
       if bool_decide (id = "job-1") then (["web"], None)
       else if bool_decide (id = "broken") then ([], Some (New "connection refused"))
       else ([], Some (Wrapf (Sentinel ErrorNotFound) "find job")))
    (fun _ => (None, Some (New "no earnings")))
    (fun _ => (1%Z, None)).

(** A request with the given [sort] query value and body. *)
Definition exampleRequest (sort body : string) : Request :=
  Build_Request (fun _ => sort) (body, None).

(** A request whose body does not bind, and an application whose store
    refuses to add jobs. *)
Definition unboundContext : @Context exampleModels :=
  @Build_Context exampleModels (inl (New "unexpected EOF")) (fun _ => "").

Definition saturatedApp : @Application exampleModels :=
  @Build_Application exampleModels true true false
    (fun _ => None) (fun _ => None) (fun _ => Some (New "disk full"))
    (fun _ => None) (fun _ => None).

End Web.

(** * Properties *)

(** ** The bridge task *)

Section BridgeTaskFacts.
Import Errors Pipeline Pipeline.BridgeTask.

Lemma Run_inputs tk inputs w :
  (0 < length inputs)%nat ->
  Run tk inputs w =
    ((tk, Returned {| Value := Nil; Error := Some cardinalityError |}), w, []).
Proof.
  intros Hlen. unfold Run.
  destruct inputs as [|r rest]; [simpl in Hlen; lia|]. reflexivity.
Qed.

Lemma Run_lookup_failed tk w bridge e :
  FindBridge (orm tk) (Name tk) = (bridge, Some e) ->
  Run tk [] w =
    ((tk, Returned {| Value := Nil; Error := Some e |}), w, [EvFindBridge (Name tk)]).
Proof.
  intros Hfind. unfold Run, getBridgeURLFromName, bind, emit, ret. simpl.
  rewrite Hfind. reflexivity.
Qed.

Lemma Run_network_failed tk w bridge e :
  FindBridge (orm tk) (Name tk) = (bridge, None) ->
  network w (delegate tk w (BridgeURL bridge)) = inl e ->
  Run tk [] w =
    ((setRequestData tk (Some (augmented tk w)),
      Returned {| Value := Nil; Error := Some e |}),
     drawn w,
     [EvFindBridge (Name tk); EvNewID (next_id w);
      EvHTTPRun (delegate tk w (BridgeURL bridge)) []]).
Proof.
  intros Hfind Hnet.
  unfold Run, getBridgeURLFromName, HTTPTask_Run, NewID, bind, emit, ret. simpl.
  rewrite Hfind. simpl.
  unfold delegate, augmented in Hnet.
  destruct (RequestData tk) as [m|] eqn:Hrd; simpl in *;
    rewrite ?Hrd; simpl; rewrite Hnet; simpl;
    unfold delegate, augmented, drawn; rewrite Hrd; reflexivity.
Qed.

Lemma Run_fetched tk w bridge answer :
  FindBridge (orm tk) (Name tk) = (bridge, None) ->
  network w (delegate tk w (BridgeURL bridge)) = inr answer ->
  Run tk [] w =
    ((setRequestData tk (Some (augmented tk w)),
      Returned {| Value := Bytes answer; Error := None |}),
     drawn w,
     [EvFindBridge (Name tk); EvNewID (next_id w);
      EvHTTPRun (delegate tk w (BridgeURL bridge)) [];
      EvDebugw "Bridge: fetched answer" answer (BridgeURL bridge)]).
Proof.
  intros Hfind Hnet.
  unfold Run, getBridgeURLFromName, HTTPTask_Run, NewID, bind, emit, ret. simpl.
  rewrite Hfind. simpl.
  unfold delegate, augmented in Hnet.
  destruct (RequestData tk) as [m|] eqn:Hrd; simpl in *;
    rewrite ?Hrd; simpl; rewrite Hnet; simpl;
    unfold delegate, augmented, drawn; rewrite Hrd; reflexivity.
Qed.

Lemma Run_nil_cases tk w : RunCase tk w (Run tk [] w).
Proof.
  destruct (FindBridge (orm tk) (Name tk)) as [bridge [e|]] eqn:Hfind.
  - rewrite (Run_lookup_failed _ _ _ _ Hfind). by eapply LookupFailed.
  - destruct (network w (delegate tk w (BridgeURL bridge))) as [e|answer] eqn:Hnet.
    + rewrite (Run_network_failed _ _ _ _ Hfind Hnet). by eapply NetworkFailed.
    + rewrite (Run_fetched _ _ _ _ Hfind Hnet). by eapply Fetched.
Qed.

Lemma elem_of_list_singleton_refl {A} (x : A) : x ∈ [x].
Proof. by apply list_elem_of_singleton. Qed.

Lemma augmented_id tk w : augmented tk w !! "id" = Some (IDVal (next_id w)).
Proof. unfold augmented. apply lookup_insert_eq. Qed.

Lemma augmented_other tk w k :
  k <> "id" -> augmented tk w !! k = default ∅ (RequestData tk) !! k.
Proof. intros Hk. unfold augmented. by rewrite lookup_insert_ne. Qed.

(** C2: with one input or more, [Run] returns a Result whose Error wraps
    the wrong-input-cardinality error, and it does so at once: the task
    and the world are as before and the trace is empty, so the bridge was
    not looked up and the network not called.  With no input, [Run] goes
    on to the registry look-up. *)
Theorem Run_checks_cardinality tk inputs w :
  ((0 < length inputs)%nat ->
   exists e,
     Run tk inputs w = ((tk, Returned {| Value := Nil; Error := Some e |}), w, [])
     /\ e = Wrapf (Sentinel ErrWrongInputCardinality) "BridgeTask requires 0 inputs"
     /\ Cause e = Sentinel ErrWrongInputCardinality)
  /\ (inputs = [] ->
      exists res w' evs,
        Run tk inputs w = (res, w', EvFindBridge (Name tk) :: evs)).
Proof.
  split.
  - intros Hlen. exists cardinalityError. split; [|done].
    by apply Run_inputs.
  - intros ->. destruct (Run_nil_cases tk w); eauto.
Qed.

Lemma Run_checks_cardinality_witness :
  (exists e,
     Run exampleTask [ {| Value := Nil; Error := None |} ] exampleWorld
     = ((exampleTask, Returned {| Value := Nil; Error := Some e |}), exampleWorld, [])
     /\ e = Wrapf (Sentinel ErrWrongInputCardinality) "BridgeTask requires 0 inputs"
     /\ Cause e = Sentinel ErrWrongInputCardinality)
  /\ (exists res w' evs,
        Run exampleTask [] exampleWorld = (res, w', EvFindBridge "adapter" :: evs)).
Proof.
  split.
  - apply (Run_checks_cardinality exampleTask [ {| Value := Nil; Error := None |} ]
             exampleWorld). simpl. lia.
  - apply (Run_checks_cardinality exampleTask [] exampleWorld). reflexivity.
Defined.

(** C7: once the cardinality check is passed and the bridge resolved,
    [Run] delegates exactly once, to an HTTP stage built with the resolved
    URL, method POST, the augmented body (the one the task now holds) and
    unrestricted network access allowed; when that stage returns a Result
    without Error, [Run] returns that very Result. *)
Theorem Run_delegates_to_HTTP tk w bridge :
  FindBridge (orm tk) (Name tk) = (bridge, None) ->
  exists tk' out w' evs h,
    Run tk [] w = ((tk', out), w', evs)
    /\ delegations evs = [h]
    /\ h = {| HTTPTask.URL := BridgeURL bridge;
              HTTPTask.Method := "POST";
              HTTPTask.RequestData := RequestData tk';
              HTTPTask.AllowUnrestrictedNetworkAccess := true;
              HTTPTask.config := config tk |}
    /\ RequestData tk' =
         Some (<["id" := IDVal (next_id w)]> (default ∅ (RequestData tk)))
    /\ (forall result w1 ev1,
          HTTPTask_Run h [] (drawn w) = (result, w1, ev1) ->
          Error result = None ->
          out = Returned result).
Proof.
  intros Hfind.
  destruct (Run_nil_cases tk w) as [b e Hf | b e Hf Hnet | b answer Hf Hnet];
    rewrite Hfind in Hf; inversion Hf; subst b.
  - do 5 eexists. split; [reflexivity|]. split; [reflexivity|].
    split; [reflexivity|]. split; [reflexivity|].
    intros result w1 ev1 Hrun Herr.
    unfold HTTPTask_Run, bind, emit in Hrun. simpl in Hrun.
    rewrite Hnet in Hrun. inversion Hrun; subst. discriminate.
  - do 5 eexists. split; [reflexivity|]. split; [reflexivity|].
    split; [reflexivity|]. split; [reflexivity|].
    intros result w1 ev1 Hrun Herr.
    unfold HTTPTask_Run, bind, emit in Hrun. simpl in Hrun.
    rewrite Hnet in Hrun. inversion Hrun; subst. reflexivity.
Qed.

Lemma Run_delegates_to_HTTP_witness :
  exists tk' out w' evs h,
    Run exampleTask [] exampleWorld = ((tk', out), w', evs)
    /\ delegations evs = [h]
    /\ h = {| HTTPTask.URL := "http://adapter.example/";
              HTTPTask.Method := "POST";
              HTTPTask.RequestData := RequestData tk';
              HTTPTask.AllowUnrestrictedNetworkAccess := true;
              HTTPTask.config := config exampleTask |}
    /\ RequestData tk' = Some (<["id" := IDVal 0]> ∅)
    /\ (forall result w1 ev1,
          HTTPTask_Run h [] (drawn exampleWorld) = (result, w1, ev1) ->
          Error result = None ->
          out = Returned result).
Proof.
  apply (Run_delegates_to_HTTP exampleTask exampleWorld
           {| BridgeURL := "http://adapter.example/" |}).
  reflexivity.
Defined.

(** C1: whenever a run with no inputs delegates to the HTTP stage, the
    body it sends is the task's request data (the empty mapping if it was
    nil) with the key "id" set to the identifier generated during that
    very run, and it is the mapping the task now holds; a run whose bridge
    resolves does delegate.  The "id" sent by a run and the "id" sent by
    the next run, whatever the configuration of its task, differ. *)
Theorem Run_injects_fresh_id tk tk' w r1 w1 ev1 r2 w2 ev2 :
  Run tk [] w = (r1, w1, ev1) ->
  Run tk' [] w1 = (r2, w2, ev2) ->
  (forall h, h ∈ delegations ev1 ->
     exists id body,
       generated ev1 = [id]
       /\ body = <["id" := IDVal id]> (default ∅ (RequestData tk))
       /\ HTTPTask.RequestData h = Some body
       /\ RequestData r1.1 = Some body
       /\ body !! "id" = Some (IDVal id))
  /\ (forall bridge, FindBridge (orm tk) (Name tk) = (bridge, None) ->
      exists h, delegations ev1 = [h])
  /\ (forall h1 h2 body1 body2,
       h1 ∈ delegations ev1 -> h2 ∈ delegations ev2 ->
       HTTPTask.RequestData h1 = Some body1 ->
       HTTPTask.RequestData h2 = Some body2 ->
       is_Some (body1 !! "id") /\ is_Some (body2 !! "id")
       /\ body1 !! "id" <> body2 !! "id").
Proof.
  intros Hrun1 Hrun2.
  pose proof (Run_nil_cases tk w) as C1. rewrite Hrun1 in C1.
  pose proof (Run_nil_cases tk' w1) as C2. rewrite Hrun2 in C2.
  split; [|split].
  - intros h Hh.
    inversion C1; subst; simpl in Hh;
      [ by apply elem_of_nil in Hh
      | apply list_elem_of_singleton in Hh; subst h
      | apply list_elem_of_singleton in Hh; subst h ];
      exists (next_id w), (augmented tk w); simpl;
      (repeat split; try reflexivity; apply augmented_id).
  - intros bridge Hfind.
    inversion C1; subst; simpl; eauto; congruence.
  - intros h1 h2 body1 body2 Hh1 Hh2 Hb1 Hb2.
    assert (body1 = augmented tk w /\ w1 = drawn w) as [-> ->].
    { inversion C1; subst; simpl in Hh1;
        [ by apply elem_of_nil in Hh1
        | apply list_elem_of_singleton in Hh1; subst h1
        | apply list_elem_of_singleton in Hh1; subst h1 ];
        simpl in Hb1; by inversion Hb1. }
    assert (body2 = augmented tk' (drawn w)) as ->.
    { inversion C2; subst; simpl in Hh2;
        [ by apply elem_of_nil in Hh2
        | apply list_elem_of_singleton in Hh2; subst h2
        | apply list_elem_of_singleton in Hh2; subst h2 ];
        simpl in Hb2; by inversion Hb2. }
    rewrite !augmented_id. simpl.
    repeat split; eauto. intros Heq. inversion Heq. lia.
Qed.

Lemma Run_injects_fresh_id_witness :
  exists r1 w1 ev1 r2 w2 ev2,
    Run exampleTask [] exampleWorld = (r1, w1, ev1)
    /\ Run r1.1 [] w1 = (r2, w2, ev2)
    /\ (exists h1 h2 body1 body2,
          delegations ev1 = [h1] /\ delegations ev2 = [h2]
          /\ HTTPTask.RequestData h1 = Some body1
          /\ HTTPTask.RequestData h2 = Some body2
          /\ body1 !! "id" = Some (IDVal 0)
          /\ body1 !! "id" <> body2 !! "id").
Proof.
  pose proof (Run_fetched exampleTask exampleWorld
                {| BridgeURL := "http://adapter.example/" |} [] eq_refl eq_refl)
    as Hrun1.
  pose proof (Run_fetched
                (setRequestData exampleTask (Some (augmented exampleTask exampleWorld)))
                (drawn exampleWorld)
                {| BridgeURL := "http://adapter.example/" |} [] eq_refl eq_refl)
    as Hrun2.
  pose proof (Run_injects_fresh_id _ _ _ _ _ _ _ _ _ Hrun1 Hrun2) as [_ [_ Hdiff]].
  do 6 eexists. split; [exact Hrun1|]. split; [exact Hrun2|].
  do 4 eexists. split; [reflexivity|]. split; [reflexivity|].
  split; [reflexivity|]. split; [reflexivity|].
  split; [apply augmented_id|].
  exact (proj2 (proj2
           (Hdiff (delegate exampleTask exampleWorld "http://adapter.example/")
                  (delegate (setRequestData exampleTask
                               (Some (augmented exampleTask exampleWorld)))
                            (drawn exampleWorld) "http://adapter.example/")
                  _ _
                  (elem_of_list_singleton_refl _) (elem_of_list_singleton_refl _)
                  eq_refl eq_refl))).
Defined.

(** C8, as stated, fails: a task decoded without request data holds the
    mapping with the injected "id" once [Run] has delegated. *)
Lemma Run_changes_RequestData :
  ~ (forall tk inputs w,
       Name (taskAfter tk inputs w) = Name tk
       /\ RequestData (taskAfter tk inputs w) = RequestData tk).
Proof.
  intros Hsame.
  destruct (Hsame exampleTask [] exampleWorld) as [_ Hrd].
  unfold taskAfter in Hrd.
  rewrite (Run_fetched exampleTask exampleWorld
             {| BridgeURL := "http://adapter.example/" |} [] eq_refl eq_refl) in Hrd.
  simpl in Hrd. discriminate Hrd.
Qed.

(** C8, amended: [Run] leaves the base fields, the name and the injected
    collaborators as they were.  The request data is untouched when [Run]
    stops before delegating (wrong cardinality, or the bridge is not
    resolved); otherwise it is the declared mapping, the empty one if it
    was nil, with the key "id" set to the identifier just generated, every
    other key keeping its value. *)
Theorem Run_frame tk inputs w :
  BaseTask (taskAfter tk inputs w) = BaseTask tk
  /\ Name (taskAfter tk inputs w) = Name tk
  /\ orm (taskAfter tk inputs w) = orm tk
  /\ config (taskAfter tk inputs w) = config tk
  /\ match delegations (traceOf tk inputs w) with
     | [] => RequestData (taskAfter tk inputs w) = RequestData tk
     | _ => RequestData (taskAfter tk inputs w)
            = Some (<["id" := IDVal (next_id w)]> (default ∅ (RequestData tk)))
     end
  /\ (forall k, k <> "id" ->
        default ∅ (RequestData (taskAfter tk inputs w)) !! k
        = default ∅ (RequestData tk) !! k).
Proof.
  unfold taskAfter, traceOf.
  destruct inputs as [|r rest].
  - destruct (Run_nil_cases tk w); simpl; repeat split; try reflexivity;
      intros k Hk; by apply augmented_other.
  - rewrite Run_inputs by (simpl; lia). simpl. repeat split; reflexivity.
Qed.

(** The HTTP stage's contract: a Result without Error carries bytes. *)
Lemma HTTPTask_Run_bytes h inputs w result w' evs :
  HTTPTask_Run h inputs w = (result, w', evs) ->
  Error result = None ->
  exists answer, Value result = Bytes answer.
Proof.
  unfold HTTPTask_Run, bind, emit. simpl.
  destruct (network w h) as [e|answer]; intros Hrun Herr;
    inversion Hrun; subst; simpl in *; [discriminate | eauto].
Qed.

(** C10: the HTTP stage hands back bytes whenever it reports no Error, so
    the type assertion made for logging cannot fail: for every task, every
    input list and every world (every answer of the registry and of the
    network), [Run] returns a Result and does not panic. *)
Theorem Run_total tk inputs w :
  (forall h ins w0,
     Error (HTTPTask_Run h ins w0).1.1 = None ->
     exists answer, Value (HTTPTask_Run h ins w0).1.1 = Bytes answer)
  /\ exists tk' result w' evs,
       Run tk inputs w = ((tk', Returned result), w', evs).
Proof.
  split.
  - intros h ins w0.
    destruct (HTTPTask_Run h ins w0) as [[result w'] evs] eqn:Hrun.
    simpl. eauto using HTTPTask_Run_bytes.
  - destruct inputs as [|r rest].
    + destruct (Run_nil_cases tk w); eauto.
    + rewrite Run_inputs by (simpl; lia). eauto.
Qed.

End BridgeTaskFacts.

(** ** Fetchers *)

Section NotifieeFacts.
Import Job.

Lemma Transformer_nested_ind (P : Transformer -> Prop) :
  (forall n owned, Forall P owned -> P (mkTransformer n owned)) ->
  forall t, P t.
Proof.
  intros Hstep. fix IH 1. intros [n owned]. apply Hstep.
  induction owned as [|t ts IHts]; constructor; [apply IH | exact IHts].
Qed.

Lemma each_is_range n ts : forall i,
  (fix each (i : nat) (ts : list Transformer) : list Transformer * list path :=
     match ts with
     | [] => ([], [])
     | t' :: rest =>
         let '(t'', l1) := Transformer_SetNotifiee n t' in
         let '(rest', l2) := each (S i) rest in
         (t'' :: rest', (cons i <$> l1) ++ l2)
     end) i ts = range_SetNotifiee n i ts.
Proof.
  induction ts as [|t ts IHts]; intros i; simpl; [reflexivity|].
  rewrite IHts. reflexivity.
Qed.

Lemma Transformer_SetNotifiee_unfold n m owned :
  Transformer_SetNotifiee n (mkTransformer m owned) =
    (mkTransformer n (range_SetNotifiee n 0 owned).1,
     [] :: (range_SetNotifiee n 0 owned).2).
Proof.
  simpl. rewrite each_is_range.
  destruct (range_SetNotifiee n 0 owned). reflexivity.
Qed.

Lemma range_SetNotifiee_cons n i t ts :
  range_SetNotifiee n i (t :: ts) =
    ((Transformer_SetNotifiee n t).1 :: (range_SetNotifiee n (S i) ts).1,
     (cons i <$> (Transformer_SetNotifiee n t).2) ++ (range_SetNotifiee n (S i) ts).2).
Proof.
  simpl. destruct (Transformer_SetNotifiee n t), (range_SetNotifiee n (S i) ts).
  reflexivity.
Qed.

Lemma visits_nil p : visits [] p = 0%nat.
Proof. reflexivity. Qed.

Lemma visits_cons q log p :
  visits (q :: log) p = ((if decide (q = p) then 1 else 0) + visits log p)%nat.
Proof.
  unfold visits. rewrite filter_cons. destruct (decide (q = p)); reflexivity.
Qed.

Lemma visits_app l1 l2 p : visits (l1 ++ l2) p = (visits l1 p + visits l2 p)%nat.
Proof. unfold visits. by rewrite filter_app, length_app. Qed.

Lemma visits_under_nil i log : visits (cons i <$> log) [] = 0%nat.
Proof.
  induction log as [|q log IH]; [reflexivity|].
  rewrite fmap_cons, visits_cons, IH. by case_decide.
Qed.

Lemma visits_under i log j p :
  visits (cons i <$> log) (j :: p) = if decide (i = j) then visits log p else 0%nat.
Proof.
  induction log as [|q log IH]; [by case_decide|].
  rewrite fmap_cons, !visits_cons, IH.
  repeat case_decide; try reflexivity; congruence.
Qed.

Lemma range_reached ts :
  Forall reached ts ->
  forall n i,
    visits (range_SetNotifiee n i ts).2 [] = 0%nat
    /\ (forall j p,
          visits (range_SetNotifiee n i ts).2 (j :: p) =
            if decide (i <= j)%nat
            then once (notifiee_among ts ((j - i)%nat :: p))
            else 0%nat)
    /\ (forall k p,
          notifiee_among (range_SetNotifiee n i ts).1 (k :: p)
          = (fun _ => n) <$> notifiee_among ts (k :: p)).
Proof.
  induction 1 as [|t ts Ht Hts IH]; intros n i.
  - simpl. split; [reflexivity|]. split.
    + intros j p. rewrite visits_nil. destruct (decide (i <= j)%nat); [|reflexivity].
      by destruct (j - i)%nat.
    + intros k p. by destruct k.
  - rewrite range_SetNotifiee_cons. simpl.
    destruct (IH n (S i)) as (IHnil & IHvis & IHat).
    split; [|split].
    + by rewrite visits_app, visits_under_nil, IHnil.
    + intros j p. rewrite visits_app, visits_under, IHvis.
      destruct (Ht n p) as [Hvis _].
      repeat case_decide; subst; try lia.
      * rewrite Hvis. replace (j - j)%nat with 0%nat by lia. simpl. lia.
      * replace (j - i)%nat with (S (j - S i)) by lia. reflexivity.
    + intros k p. destruct k as [|k]; simpl.
      * apply (Ht n p).
      * apply (IHat k p).
Qed.

Lemma every_transformer_reached t : reached t.
Proof.
  induction t as [m owned IH] using Transformer_nested_ind.
  intros n p. rewrite Transformer_SetNotifiee_unfold. simpl.
  destruct (range_reached owned IH n 0%nat) as (Hnil & Hvis & Hat).
  destruct p as [|j p].
  - rewrite visits_cons, Hnil. split; reflexivity.
  - rewrite visits_cons, Hvis. split.
    + destruct (decide ([] = j :: p)); [discriminate|].
      destruct (decide (0 <= j)%nat); [|lia].
      replace (j - 0)%nat with j by lia. reflexivity.
    + apply (Hat j p).
Qed.

Lemma SetNotifiee_at f n p :
  visits (SetNotifiee f n).2 p = once (notifiee_at f p)
  /\ notifiee_at (SetNotifiee f n).1 p = (fun _ => n) <$> notifiee_at f p.
Proof.
  unfold SetNotifiee.
  assert (Forall reached (Transformers f)) as Hall
    by (apply Forall_forall; intros t _; apply every_transformer_reached).
  destruct (range_reached _ Hall n 0%nat) as (Hnil & Hvis & Hat).
  destruct (range_SetNotifiee n 0 (Transformers f)) as [ts log] eqn:Hrange.
  simpl in *. destruct p as [|j p].
  - rewrite visits_cons, Hnil. split; reflexivity.
  - rewrite visits_cons, Hvis. split.
    + destruct (decide ([] = j :: p)) as [Heq|_]; [discriminate Heq|].
      replace (j - 0)%nat with j by lia. reflexivity.
    + apply (Hat j p).
Qed.

(** C9: [SetNotifiee] hands the sink to the fetcher itself and to every
    transformer it owns, at any depth: each position that holds a stage
    holds, after the call, a stage whose notifiee is the sink, and the call
    assigned it exactly once; the call assigns nothing but stages of the
    fetcher. *)
Theorem SetNotifiee_reaches_every_stage_once f n p :
  is_Some (notifiee_at f p) ->
  notifiee_at (SetNotifiee f n).1 p = Some n
  /\ visits (SetNotifiee f n).2 p = 1%nat
  /\ (forall q, q ∈ (SetNotifiee f n).2 -> is_Some (notifiee_at f q)).
Proof.
  intros [m Hm]. destruct (SetNotifiee_at f n p) as [Hvis Hat].
  rewrite Hat, Hvis, Hm. repeat split.
  intros q Hq. destruct (SetNotifiee_at f n q) as [Hvisq _].
  destruct (notifiee_at f q) as [m'|] eqn:Hq'; [eauto|].
  exfalso. unfold visits in Hvisq. simpl in Hvisq.
  apply length_zero_iff_nil in Hvisq.
  assert (q ∈ filter (fun q0 => q0 = q) (SetNotifiee f n).2) as Hin
    by (apply list_elem_of_filter; split; [reflexivity | exact Hq]).
  rewrite Hvisq in Hin. by apply elem_of_nil in Hin.
Qed.

Lemma SetNotifiee_reaches_every_stage_once_witness :
  notifiee_at exampleFetcher [1; 1; 0]%nat = Some None
  /\ notifiee_at (SetNotifiee exampleFetcher (Some 5%nat)).1 [1; 1; 0]%nat
     = Some (Some 5%nat)
  /\ visits (SetNotifiee exampleFetcher (Some 5%nat)).2 [1; 1; 0]%nat = 1%nat.
Proof.
  split; [reflexivity|].
  pose proof (SetNotifiee_reaches_every_stage_once exampleFetcher (Some 5%nat)
                [1; 1; 0]%nat (ex_intro _ None eq_refl)) as (Hat & Hvis & _).
  split; [exact Hat | exact Hvis].
Defined.

End NotifieeFacts.

Section DecodeFacts.
Import Errors Job.

Lemma decodeEach_stops `{FetcherVariants} pre : forall f fs bad post x e,
  Forall2 (fun d fetcher => UnmarshalFetcherJSON (Doc d) = (fetcher, None)) pre fs ->
  UnmarshalFetcherJSON (Doc bad) = (x, Some e) ->
  decodeEach f (Doc <$> (pre ++ bad :: post)) = (f ++ fs, Some e).
Proof.
  induction pre as [|d pre IH]; intros f fs bad post x e Hpre Hbad.
  - inversion Hpre; subst. rewrite app_nil_l, fmap_cons. cbn [decodeEach].
    rewrite Hbad. by rewrite app_nil_r.
  - inversion Hpre as [|? fetcher ? fs' Hd Hrest]; subst.
    rewrite <- app_comm_cons, fmap_cons. cbn [decodeEach]. rewrite Hd.
    rewrite (IH (f ++ [fetcher]) fs' bad post x e Hrest Hbad).
    by rewrite <- app_assoc.
Qed.

(** C3, as stated, fails: decoding [[{"type": "bridge"}, {"type":
    "nonsense"}]] into an empty collection returns an error and leaves the
    bridge fetcher in the receiver. *)
Lemma UnmarshalJSON_keeps_decoded_prefix :
  ~ (forall (V : FetcherVariants) (f : Fetchers) (elems : list json),
       (exists d, d ∈ elems /\ is_Some (UnmarshalFetcherJSON (Doc d)).2) ->
       is_Some (UnmarshalJSON f (Doc (JArray elems))).2
       /\ (UnmarshalJSON f (Doc (JArray elems))).1 = f).
Proof.
  intros Hclaim.
  destruct (Hclaim exampleVariants [] [bridgeDoc; nonsenseDoc]) as [_ Hsame].
  - exists nonsenseDoc. split; [|by eexists].
    apply elem_of_cons. right. by apply list_elem_of_singleton.
  - vm_compute in Hsame. discriminate Hsame.
Qed.

Lemma first_failure `{FetcherVariants} elems :
  (exists d, d ∈ elems /\ is_Some (UnmarshalFetcherJSON (Doc d)).2) ->
  exists pre bad post fs x e,
    elems = pre ++ bad :: post
    /\ Forall2 (fun d fetcher => UnmarshalFetcherJSON (Doc d) = (fetcher, None)) pre fs
    /\ UnmarshalFetcherJSON (Doc bad) = (x, Some e).
Proof.
  induction elems as [|d elems IH]; intros (d0 & Hin & Hfail).
  - by apply elem_of_nil in Hin.
  - destruct (UnmarshalFetcherJSON (Doc d)) as [x [e|]] eqn:Hd.
    + exists [], d, elems, [], x, e. repeat split; [constructor | exact Hd].
    + destruct IH as (pre & bad & post & fs & x' & e & -> & Hpre & Hbad).
      * apply elem_of_cons in Hin as [-> | Hin]; [|eauto].
        rewrite Hd in Hfail. simpl in Hfail. by destruct Hfail.
      * exists (d :: pre), bad, post, (x :: fs), x', e.
        repeat split; [by constructor | exact Hbad].
Qed.

(** C3, amended: when some element fails to decode, [UnmarshalJSON]
    returns the error of the first one that fails, annotated with the
    stack, whatever follows it; the receiver holds what it held followed by
    the fetchers decoded from the elements before that one. *)
Theorem UnmarshalJSON_fails_fast `{FetcherVariants} (f : Fetchers) elems :
  (exists d, d ∈ elems /\ is_Some (UnmarshalFetcherJSON (Doc d)).2) ->
  exists pre bad post fs x e,
    elems = pre ++ bad :: post
    /\ Forall2 (fun d fetcher => UnmarshalFetcherJSON (Doc d) = (fetcher, None)) pre fs
    /\ UnmarshalFetcherJSON (Doc bad) = (x, Some e)
    /\ UnmarshalJSON f (Doc (JArray elems)) = (f ++ fs, Some (WithStack e)).
Proof.
  intros Hfail.
  destruct (first_failure elems Hfail)
    as (pre & bad & post & fs & x & e & -> & Hpre & Hbad).
  exists pre, bad, post, fs, x, e. repeat split; try assumption.
  unfold UnmarshalJSON. simpl.
  by rewrite (decodeEach_stops pre f fs bad post x e Hpre Hbad).
Qed.

Lemma UnmarshalJSON_fails_fast_witness :
  (exists d, d ∈ [bridgeDoc; nonsenseDoc; httpDoc]
             /\ is_Some (@UnmarshalFetcherJSON exampleVariants (Doc d)).2)
  /\ exists pre bad post fs x e,
       [bridgeDoc; nonsenseDoc; httpDoc] = pre ++ bad :: post
       /\ Forall2 (fun d fetcher =>
                     @UnmarshalFetcherJSON exampleVariants (Doc d) = (fetcher, None))
                  pre fs
       /\ @UnmarshalFetcherJSON exampleVariants (Doc bad) = (x, Some e)
       /\ @UnmarshalJSON exampleVariants [] (Doc (JArray [bridgeDoc; nonsenseDoc; httpDoc]))
          = ([] ++ fs, Some (WithStack e)).
Proof.
  assert (exists d, d ∈ [bridgeDoc; nonsenseDoc; httpDoc]
                    /\ is_Some (@UnmarshalFetcherJSON exampleVariants (Doc d)).2)
    as Hfail.
  { exists nonsenseDoc. split; [|by eexists].
    apply elem_of_cons. right. apply elem_of_cons. by left. }
  split; [exact Hfail|].
  exact (UnmarshalJSON_fails_fast (H := exampleVariants) []
           [bridgeDoc; nonsenseDoc; httpDoc] Hfail).
Defined.

(** C4, as stated, fails: the error returned for an unknown discriminator
    is the same for every document, so the document cannot be read off
    it. *)
Lemma unknown_type_error_omits_document :
  ~ (exists original : error -> document,
       forall (V : FetcherVariants) bs ty,
         unmarshalHeader bs = (ty, None) ->
         ty <> FetcherTypeBridge -> ty <> FetcherTypeHttp -> ty <> FetcherTypeMedian ->
         exists e, UnmarshalFetcherJSON bs = (None, Some e) /\ original e = bs).
Proof.
  intros [original Hclaim].
  destruct (Hclaim exampleVariants (Doc nonsenseDoc) "nonsense")
    as (e1 & Hrun1 & Hdoc1); [reflexivity | discriminate..|].
  destruct (Hclaim exampleVariants (Doc otherDoc) "other")
    as (e2 & Hrun2 & Hdoc2); [reflexivity | discriminate..|].
  vm_compute in Hrun1, Hrun2.
  inversion Hrun1; inversion Hrun2; subst e1 e2.
  rewrite Hdoc1 in Hdoc2. discriminate Hdoc2.
Qed.

(** C4, amended: a document whose discriminator decodes and is none of
    "bridge", "http", "median" makes [UnmarshalFetcherJSON] return a nil
    Fetcher and the error "unknown fetcher type" annotated with the stack;
    the error does not depend on the document. *)
Theorem UnmarshalFetcherJSON_unknown_type `{FetcherVariants} bs ty :
  unmarshalHeader bs = (ty, None) ->
  ty <> FetcherTypeBridge -> ty <> FetcherTypeHttp -> ty <> FetcherTypeMedian ->
  UnmarshalFetcherJSON bs = (None, Some (WithStack (New "unknown fetcher type"))).
Proof.
  intros Hheader Hb Hh Hm. unfold UnmarshalFetcherJSON. rewrite Hheader.
  rewrite !bool_decide_eq_false_2 by assumption. reflexivity.
Qed.

Lemma UnmarshalFetcherJSON_unknown_type_witness :
  @UnmarshalFetcherJSON exampleVariants (Doc nonsenseDoc)
  = (None, Some (WithStack (New "unknown fetcher type"))).
Proof.
  apply (UnmarshalFetcherJSON_unknown_type (H := exampleVariants)
           (Doc nonsenseDoc) "nonsense");
    [reflexivity | discriminate..].
Defined.

End DecodeFacts.

(** ** The job-spec controller *)

Section ControllerFacts.
Import Errors Web.
Context `{Models}.

Lemma requireImplemented_enabled app js :
  Dev app = true \/ FeatureFluxMonitor app = true ->
  requireImplemented app js = None.
Proof.
  unfold requireImplemented. intros [-> | ->]; [reflexivity|].
  by rewrite andb_false_r.
Qed.

Lemma requireImplemented_disabled app js :
  Dev app = false -> FeatureFluxMonitor app = false ->
  (0 < length (InitiatorsFor js InitiatorFluxMonitor))%nat ->
  requireImplemented app js
  = Some (New "The Flux Monitor feature is disabled by configuration").
Proof.
  unfold requireImplemented. intros -> -> Hlen. simpl.
  destruct (InitiatorsFor js InitiatorFluxMonitor); [simpl in Hlen; lia|].
  reflexivity.
Qed.

(** C5: a creation request that binds to a job with a flux-monitor
    initiator is answered, while dev mode and the flux-monitor flag are
    both off, with status 501, whatever validation would have said (the
    gate comes first), and 501 is not the 400 of a validation failure; with
    dev mode or the flag on, the same request passes the gate and its
    outcome is that of validation. *)
Theorem gated_creation_not_implemented app c jsr :
  ShouldBindJSON c = inr jsr ->
  (0 < length (InitiatorsFor (NewJobFromRequest jsr) InitiatorFluxMonitor))%nat ->
  (Dev app = false -> FeatureFluxMonitor app = false ->
     exists e,
       getAndCheckJobSpec app c = (zeroJobSpec, StatusNotImplemented, Some e)
       /\ Create app c = {| status := 501; payload := PayloadError e |})
  /\ StatusNotImplemented <> StatusBadRequest
  /\ (Dev app = true \/ FeatureFluxMonitor app = true ->
      requireImplemented app (NewJobFromRequest jsr) = None
      /\ getAndCheckJobSpec app c =
           match ValidateJob app (NewJobFromRequest jsr) with
           | Some err => (zeroJobSpec, StatusBadRequest, Some err)
           | None => (NewJobFromRequest jsr, 0%Z, None)
           end).
Proof.
  intros Hbind Hflux. split; [|split].
  - intros Hdev Hflag.
    exists (New "The Flux Monitor feature is disabled by configuration").
    assert (getAndCheckJobSpec app c =
              (zeroJobSpec, StatusNotImplemented,
               Some (New "The Flux Monitor feature is disabled by configuration")))
      as Hcheck.
    { unfold getAndCheckJobSpec. rewrite Hbind.
      by rewrite (requireImplemented_disabled _ _ Hdev Hflag Hflux). }
    split; [exact Hcheck|]. unfold Create. rewrite Hcheck. reflexivity.
  - discriminate.
  - intros Hon. pose proof (requireImplemented_enabled app (NewJobFromRequest jsr) Hon)
      as Hgate.
    split; [exact Hgate|]. unfold getAndCheckJobSpec. rewrite Hbind, Hgate.
    reflexivity.
Qed.

(** X27: once the identifier is read off the request, the answer of
    [Destroy] and of [DestroyV2] follows what the store reports for the
    identifier handed to it, which for [DestroyV2] is the parsed one cut
    down to 32 bits: an error whose cause is the not-found error gives
    status 404, any other error status 500, and no error status 204 with no
    payload; 404 and 500 differ. *)
Theorem deletion_classifies_not_found app c :
  (forall id, NewIDFromString (Param c "SpecID") = inr id ->
     (forall e, ArchiveJob app id = Some e -> Cause e = Sentinel ErrorNotFound ->
        Destroy app c = {| status := 404; payload := PayloadError (New "JobSpec not found") |})
     /\ (forall e, ArchiveJob app id = Some e -> Cause e <> Sentinel ErrorNotFound ->
          Destroy app c = {| status := 500; payload := PayloadError e |})
     /\ (ArchiveJob app id = None ->
          Destroy app c = {| status := 204; payload := PayloadNil |}))
  /\ (forall jobID, Atoi (Param c "SpecID") = (jobID, None) ->
     (forall e, DeleteJobV2 app (int32 jobID) = Some e ->
        Cause e = Sentinel ErrorNotFound ->
        DestroyV2 app c = {| status := 404; payload := PayloadError (New "JobSpec not found") |})
     /\ (forall e, DeleteJobV2 app (int32 jobID) = Some e ->
          Cause e <> Sentinel ErrorNotFound ->
          DestroyV2 app c = {| status := 500; payload := PayloadError e |})
     /\ (DeleteJobV2 app (int32 jobID) = None ->
          DestroyV2 app c = {| status := 204; payload := PayloadNil |}))
  /\ StatusNotFound <> StatusInternalServerError.
Proof.
  split; [|split].
  - intros id Hid. unfold Destroy. rewrite Hid. repeat split.
    + intros e -> Hcause. simpl. rewrite Hcause.
      by rewrite bool_decide_eq_true_2.
    + intros e -> Hcause. simpl.
      rewrite bool_decide_eq_false_2 by congruence. reflexivity.
    + intros ->. reflexivity.
  - intros jobID Hid. unfold DestroyV2. rewrite Hid. repeat split.
    + intros e -> Hcause. simpl. rewrite Hcause.
      by rewrite bool_decide_eq_true_2.
    + intros e -> Hcause. simpl.
      rewrite bool_decide_eq_false_2 by congruence. reflexivity.
    + intros ->. reflexivity.
  - discriminate.
Qed.

End ControllerFacts.

Section ControllerExamples.
Import Errors Web.

Lemma gated_creation_not_implemented_witness :
  (exists e,
     Create (exampleApp false false) (exampleContext ["web"; "fluxmonitor"] "")
     = {| status := 501; payload := PayloadError e |})
  /\ getAndCheckJobSpec (exampleApp false true)
       (exampleContext ["web"; "fluxmonitor"] "")
     = (["web"; "fluxmonitor"], 0%Z, None).
Proof.
  split.
  - destruct (gated_creation_not_implemented (H := exampleModels)
                (exampleApp false false)
                (exampleContext ["web"; "fluxmonitor"] "")
                ["web"; "fluxmonitor"] eq_refl) as [Hoff _].
    + vm_compute. lia.
    + destruct (Hoff eq_refl eq_refl) as (e & _ & Hcreate). by exists e.
  - destruct (gated_creation_not_implemented (H := exampleModels)
                (exampleApp false true)
                (exampleContext ["web"; "fluxmonitor"] "")
                ["web"; "fluxmonitor"] eq_refl) as (_ & _ & Hon).
    + vm_compute. lia.
    + destruct (Hon (or_intror eq_refl)) as [_ Hcheck]. exact Hcheck.
Defined.

Lemma deletion_classifies_not_found_witness :
  Destroy (exampleApp false false) (exampleContext [] "job-9")
  = {| status := 404; payload := PayloadError (New "JobSpec not found") |}
  /\ Destroy (exampleApp false false) (exampleContext [] "broken")
     = {| status := 500; payload := PayloadError (New "connection refused") |}
  /\ Destroy (exampleApp false false) (exampleContext [] "job-1")
     = {| status := 204; payload := PayloadNil |}
  /\ DestroyV2 (exampleApp false false) (exampleContext [] "9")
     = {| status := 404; payload := PayloadError (New "JobSpec not found") |}
  /\ DestroyV2 (exampleApp false false) (exampleContext [] "13")
     = {| status := 500; payload := PayloadError (New "connection refused") |}
  /\ DestroyV2 (exampleApp false false) (exampleContext [] "1")
     = {| status := 204; payload := PayloadNil |}.
Proof.
  pose proof (fun c => deletion_classifies_not_found (H := exampleModels)
                         (exampleApp false false) c) as Hdel.
  refine (conj _ (conj _ (conj _ (conj _ (conj _ _))))).
  - destruct (Hdel (exampleContext [] "job-9")) as [Hv1 _].
    destruct (Hv1 "job-9" eq_refl) as [Hmissing _].
    exact (Hmissing _ eq_refl eq_refl).
  - destruct (Hdel (exampleContext [] "broken")) as [Hv1 _].
    destruct (Hv1 "broken" eq_refl) as (_ & Hother & _).
    apply (Hother _ eq_refl). discriminate.
  - destruct (Hdel (exampleContext [] "job-1")) as [Hv1 _].
    destruct (Hv1 "job-1" eq_refl) as (_ & _ & Hok).
    exact (Hok eq_refl).
  - destruct (Hdel (exampleContext [] "9")) as (_ & Hv2 & _).
    destruct (Hv2 9%Z eq_refl) as [Hmissing _].
    exact (Hmissing _ eq_refl eq_refl).
  - destruct (Hdel (exampleContext [] "13")) as (_ & Hv2 & _).
    destruct (Hv2 13%Z eq_refl) as (_ & Hother & _).
    apply (Hother _ eq_refl). discriminate.
  - destruct (Hdel (exampleContext [] "1")) as (_ & Hv2 & _).
    destruct (Hv2 1%Z eq_refl) as (_ & _ & Hok).
    exact (Hok eq_refl).
Defined.

End ControllerExamples.

(** * Further properties *)

(** ** The bridge task: failures, logging, identifiers *)

Section BridgeTaskFurther.
Import Errors Pipeline Pipeline.BridgeTask.

(** X1: when the registry look-up fails, [Run] returns the registry's error
    as it is, and nothing else has happened: the task and the world are as
    before, no identifier was generated and no HTTP stage was run. *)
Theorem Run_surfaces_lookup_error tk w bridge e :
  FindBridge (orm tk) (Name tk) = (bridge, Some e) ->
  outcomeOf tk [] w = Returned {| Value := Nil; Error := Some e |}
  /\ taskAfter tk [] w = tk
  /\ worldAfter tk [] w = w
  /\ delegations (traceOf tk [] w) = []
  /\ generated (traceOf tk [] w) = [].
Proof.
  intros Hfind. unfold outcomeOf, taskAfter, worldAfter, traceOf.
  rewrite (Run_lookup_failed tk w bridge e Hfind). repeat split.
Qed.

Lemma Run_surfaces_lookup_error_witness :
  outcomeOf strayTask [] exampleWorld
  = Returned {| Value := Nil; Error := Some (Sentinel ErrorNotFound) |}
  /\ taskAfter strayTask [] exampleWorld = strayTask
  /\ worldAfter strayTask [] exampleWorld = exampleWorld
  /\ delegations (traceOf strayTask [] exampleWorld) = []
  /\ generated (traceOf strayTask [] exampleWorld) = [].
Proof.
  exact (Run_surfaces_lookup_error strayTask exampleWorld {| BridgeURL := "" |}
           (Sentinel ErrorNotFound) eq_refl).
Defined.

(** X2: when the delegated request fails, [Run] returns the HTTP stage's
    error as it is and logs nothing; the identifier has been generated and
    the task holds the augmented request data all the same. *)
Theorem Run_surfaces_network_error tk w bridge e :
  FindBridge (orm tk) (Name tk) = (bridge, None) ->
  network w {| HTTPTask.URL := BridgeURL bridge;
               HTTPTask.Method := "POST";
               HTTPTask.RequestData :=
                 Some (<["id" := IDVal (next_id w)]> (default ∅ (RequestData tk)));
               HTTPTask.AllowUnrestrictedNetworkAccess := true;
               HTTPTask.config := config tk |} = inl e ->
  outcomeOf tk [] w = Returned {| Value := Nil; Error := Some e |}
  /\ logged (traceOf tk [] w) = []
  /\ generated (traceOf tk [] w) = [next_id w]
  /\ RequestData (taskAfter tk [] w)
     = Some (<["id" := IDVal (next_id w)]> (default ∅ (RequestData tk))).
Proof.
  intros Hfind Hnet. unfold outcomeOf, taskAfter, traceOf.
  rewrite (Run_network_failed tk w bridge e Hfind Hnet). repeat split.
Qed.

Lemma Run_surfaces_network_error_witness :
  outcomeOf exampleTask [] offlineWorld
  = Returned {| Value := Nil; Error := Some (New "connection refused") |}
  /\ logged (traceOf exampleTask [] offlineWorld) = []
  /\ generated (traceOf exampleTask [] offlineWorld) = [4%nat]
  /\ RequestData (taskAfter exampleTask [] offlineWorld)
     = Some (<["id" := IDVal 4]> ∅).
Proof.
  exact (Run_surfaces_network_error exampleTask offlineWorld
           {| BridgeURL := "http://adapter.example/" |} (New "connection refused")
           eq_refl eq_refl).
Defined.

(** X3: [Run] writes to the log exactly when it returns a Result without
    Error, and then once: the entry carries the bytes of that Result and the
    URL the registry gave for the task's name. *)
Theorem Run_logs_exactly_on_success tk inputs w :
  logged (traceOf tk inputs w) =
    match outcomeOf tk inputs w with
    | Returned {| Value := Bytes answer; Error := None |} =>
        [(answer, BridgeURL (FindBridge (orm tk) (Name tk)).1)]
    | _ => []
    end.
Proof.
  unfold outcomeOf, traceOf. destruct inputs as [|r rest].
  - destruct (Run_nil_cases tk w) as [b e Hf | b e Hf Hnet | b answer Hf Hnet];
      simpl; try reflexivity. by rewrite Hf.
  - rewrite Run_inputs by (simpl; lia). reflexivity.
Qed.

(** X4: [Run] draws one identifier for each HTTP stage it runs, which is at
    most one, and none otherwise; the supply moves on by as many, and the
    network is the one it was. *)
Theorem Run_draws_one_id_per_delegation tk inputs w :
  length (generated (traceOf tk inputs w)) = length (delegations (traceOf tk inputs w))
  /\ (length (delegations (traceOf tk inputs w)) <= 1)%nat
  /\ next_id (worldAfter tk inputs w)
     = (next_id w + length (delegations (traceOf tk inputs w)))%nat
  /\ (forall id, id ∈ generated (traceOf tk inputs w) -> id = next_id w)
  /\ network (worldAfter tk inputs w) = network w.
Proof.
  unfold worldAfter, traceOf. destruct inputs as [|r rest].
  - destruct (Run_nil_cases tk w); simpl; repeat split; try lia;
      intros id Hid;
      (by apply elem_of_nil in Hid) || (by apply list_elem_of_singleton in Hid).
  - rewrite Run_inputs by (simpl; lia). simpl. repeat split; try lia.
    intros id Hid. by apply elem_of_nil in Hid.
Qed.

(** X5: running the task again replaces the "id" of the previous run: after
    two delegating runs the task holds the declared mapping with "id" set to
    the second identifier, and nothing of the first. *)
Theorem Run_again_replaces_id tk w bridge :
  FindBridge (orm tk) (Name tk) = (bridge, None) ->
  RequestData (taskAfter (taskAfter tk [] w) [] (worldAfter tk [] w))
  = Some (<["id" := IDVal (S (next_id w))]> (default ∅ (RequestData tk))).
Proof.
  intros Hfind.
  assert (RequestData (taskAfter tk [] w) = Some (augmented tk w)
          /\ worldAfter tk [] w = drawn w
          /\ orm (taskAfter tk [] w) = orm tk
          /\ Name (taskAfter tk [] w) = Name tk) as (Hrd & Hw & Horm & Hname).
  { unfold taskAfter, worldAfter.
    destruct (Run_nil_cases tk w) as [b e Hf | b e Hf Hnet | b answer Hf Hnet];
      [congruence | by repeat split..]. }
  rewrite Hw.
  assert (RequestData (taskAfter (taskAfter tk [] w) [] (drawn w))
          = Some (augmented (taskAfter tk [] w) (drawn w))) as ->.
  { unfold taskAfter at 1.
    destruct (Run_nil_cases (taskAfter tk [] w) (drawn w))
      as [b e Hf | b e Hf Hnet | b answer Hf Hnet]; [|reflexivity..].
    rewrite Horm, Hname in Hf. congruence. }
  unfold augmented at 1. rewrite Hrd. simpl. unfold augmented.
  by rewrite insert_insert_eq.
Qed.

Lemma Run_again_replaces_id_witness :
  RequestData (taskAfter (taskAfter declaringTask [] exampleWorld) []
                         (worldAfter declaringTask [] exampleWorld))
  = Some (<["id" := IDVal 1]>
            (default ∅ (Some (<["id" := Str "mine"]> (<["pair" := Str "ETH/USD"]> ∅))))).
Proof.
  exact (Run_again_replaces_id declaringTask exampleWorld
           {| BridgeURL := "http://adapter.example/" |} eq_refl).
Defined.

(** X6: the Result [Run] returns has exactly one side set: without Error
    its Value is a byte slice, with an Error its Value is nil. *)
Theorem Run_result_one_sided tk inputs w :
  exists r,
    outcomeOf tk inputs w = Returned r
    /\ match Error r with
       | None => exists answer, Value r = Bytes answer
       | Some _ => Value r = Nil
       end.
Proof.
  unfold outcomeOf. destruct inputs as [|r rest].
  - destruct (Run_nil_cases tk w); simpl;
      eexists; (split; [reflexivity|]); simpl; eauto.
  - rewrite Run_inputs by (simpl; lia). simpl.
    eexists; (split; [reflexivity|]); reflexivity.
Qed.

End BridgeTaskFurther.

(** ** Fetchers: decode outcomes, the notifiee *)

Section DecodeFurther.
Import Errors Job.

Lemma decodeEach_all `{FetcherVariants} elems : forall (f : Fetchers) fs,
  Forall2 (fun d fetcher => UnmarshalFetcherJSON (Doc d) = (fetcher, None)) elems fs ->
  decodeEach f (Doc <$> elems) = (f ++ fs, None).
Proof.
  induction elems as [|d elems IH]; intros f fs Hall.
  - inversion Hall; subst. simpl. by rewrite app_nil_r.
  - inversion Hall as [|? fetcher ? fs' Hd Hrest]; subst.
    rewrite fmap_cons. cbn [decodeEach]. rewrite Hd.
    rewrite (IH (f ++ [fetcher]) fs' Hrest). by rewrite <- app_assoc.
Qed.

(** X7: when every element of the array decodes, [UnmarshalJSON] returns
    no error and the receiver holds what it held followed by the decoded
    fetchers, one for each element, in the order of the array. *)
Theorem UnmarshalJSON_appends_in_order `{FetcherVariants} (f : Fetchers) elems fs :
  Forall2 (fun d fetcher => UnmarshalFetcherJSON (Doc d) = (fetcher, None)) elems fs ->
  UnmarshalJSON f (Doc (JArray elems)) = (f ++ fs, None)
  /\ length (UnmarshalJSON f (Doc (JArray elems))).1 = (length f + length elems)%nat.
Proof.
  intros Hall.
  assert (UnmarshalJSON f (Doc (JArray elems)) = (f ++ fs, None)) as Hrun.
  { unfold UnmarshalJSON. simpl. by rewrite (decodeEach_all elems f fs Hall). }
  split; [exact Hrun|]. rewrite Hrun. simpl.
  rewrite length_app. by rewrite (Forall2_length _ _ _ Hall).
Qed.

Lemma UnmarshalJSON_appends_in_order_witness :
  @UnmarshalJSON exampleVariants [None] (Doc (JArray [httpDoc; bridgeDoc]))
  = ([None] ++ [Some (FHttp (H := exampleVariants) zeroBaseFetcher);
                Some (FBridge (H := exampleVariants) zeroBaseFetcher)], None)
  /\ length (@UnmarshalJSON exampleVariants [None]
               (Doc (JArray [httpDoc; bridgeDoc]))).1 = (1 + 2)%nat.
Proof.
  apply (UnmarshalJSON_appends_in_order (H := exampleVariants) [None]
           [httpDoc; bridgeDoc]).
  repeat constructor.
Defined.

(** X8: a document that is not an array leaves the receiver as it was;
    the call then returns no error exactly when the document is [null]. *)
Theorem UnmarshalJSON_not_an_array `{FetcherVariants} (f : Fetchers) bs :
  (forall elems, bs <> Doc (JArray elems)) ->
  (UnmarshalJSON f bs).1 = f
  /\ ((UnmarshalJSON f bs).2 = None <-> bs = Doc JNull).
Proof.
  intros Hnot. destruct bs as [|[]]; simpl; try (split; [reflexivity|]);
    try (split; [discriminate | discriminate]).
  - split; reflexivity.
  - by destruct (Hnot elems).
Qed.

Lemma UnmarshalJSON_not_an_array_witness :
  (@UnmarshalJSON exampleVariants [None] (Doc bridgeDoc)).1 = [None]
  /\ ((@UnmarshalJSON exampleVariants [None] (Doc bridgeDoc)).2 = None
      <-> Doc bridgeDoc = Doc JNull).
Proof.
  apply (UnmarshalJSON_not_an_array (H := exampleVariants) [None] (Doc bridgeDoc)).
  intros elems. discriminate.
Defined.

(** X9: [UnmarshalFetcherJSON] returns either a fetcher and no error, or
    no fetcher and an error annotated with the stack; never both, never
    neither. *)
Theorem UnmarshalFetcherJSON_one_sided `{FetcherVariants} bs :
  (exists impl, UnmarshalFetcherJSON bs = (Some impl, None))
  \/ (exists e, UnmarshalFetcherJSON bs = (None, Some (WithStack e))).
Proof.
  unfold UnmarshalFetcherJSON.
  destruct (unmarshalHeader bs) as [header [e|]]; [right; eauto|].
  repeat case_bool_decide.
  - destruct (unmarshalBridge bs); [right | left]; eauto.
  - destruct (unmarshalHttp bs); [right | left]; eauto.
  - destruct (unmarshalMedian bs); [right | left]; eauto.
  - right. eauto.
Qed.

(** X10: the fetcher returned is of the variant the discriminator names,
    and it is what that variant's decode made of the whole document. *)
Theorem UnmarshalFetcherJSON_variant_matches `{FetcherVariants} bs impl err :
  UnmarshalFetcherJSON bs = (Some impl, err) ->
  err = None
  /\ (unmarshalHeader bs).2 = None
  /\ match impl with
     | FBridge b =>
         (unmarshalHeader bs).1 = FetcherTypeBridge /\ unmarshalBridge bs = inr b
     | FHttp h =>
         (unmarshalHeader bs).1 = FetcherTypeHttp /\ unmarshalHttp bs = inr h
     | FMedian m =>
         (unmarshalHeader bs).1 = FetcherTypeMedian /\ unmarshalMedian bs = inr m
     end.
Proof.
  unfold UnmarshalFetcherJSON.
  destruct (unmarshalHeader bs) as [header [e|]]; [discriminate|]. simpl.
  repeat case_bool_decide.
  - destruct (unmarshalBridge bs) eqn:Hb; intros Hrun; inversion Hrun; subst. done.
  - destruct (unmarshalHttp bs) eqn:Hh; intros Hrun; inversion Hrun; subst. done.
  - destruct (unmarshalMedian bs) eqn:Hm; intros Hrun; inversion Hrun; subst. done.
  - discriminate.
Qed.

Lemma UnmarshalFetcherJSON_variant_matches_witness :
  (@unmarshalHeader (Doc httpDoc)).1 = FetcherTypeHttp
  /\ @unmarshalHttp exampleVariants (Doc httpDoc) = inr zeroBaseFetcher.
Proof.
  exact (proj2 (proj2
    (UnmarshalFetcherJSON_variant_matches (H := exampleVariants) (Doc httpDoc)
       (FHttp (H := exampleVariants) zeroBaseFetcher) None eq_refl))).
Defined.

End DecodeFurther.

Section NotifieeFurther.
Import Job.

Lemma range_SetNotifiee_length n ts : forall i,
  length (range_SetNotifiee n i ts).1 = length ts.
Proof.
  induction ts as [|t ts IH]; intros i; [reflexivity|].
  rewrite range_SetNotifiee_cons. simpl. by rewrite IH.
Qed.

(** X11: [SetNotifiee] changes notifiees only: the fetcher keeps its ID and
    its job references, it owns as many transformers as before, and a
    position holds a stage after the call exactly when it held one before. *)
Theorem SetNotifiee_keeps_identity_and_shape f n :
  GetID (SetNotifiee f n).1 = GetID f
  /\ OffchainReportingJobID (SetNotifiee f n).1 = OffchainReportingJobID f
  /\ FluxMonitorJobID (SetNotifiee f n).1 = FluxMonitorJobID f
  /\ DirectRequestJobID (SetNotifiee f n).1 = DirectRequestJobID f
  /\ length (Transformers (SetNotifiee f n).1) = length (Transformers f)
  /\ (forall p, is_Some (notifiee_at (SetNotifiee f n).1 p)
               <-> is_Some (notifiee_at f p)).
Proof.
  assert (forall p, is_Some (notifiee_at (SetNotifiee f n).1 p)
                    <-> is_Some (notifiee_at f p)) as Hshape.
  { intros p. destruct (SetNotifiee_at f n p) as [_ ->].
    destruct (notifiee_at f p); simpl; split; intros [? ?]; eauto; discriminate. }
  pose proof (range_SetNotifiee_length n (Transformers f) 0) as Hlen.
  unfold SetNotifiee, GetID in *.
  destruct (range_SetNotifiee n 0 (Transformers f)) as [ts log]. simpl in *.
  repeat split; try reflexivity; try exact Hlen; apply Hshape.
Qed.

Lemma range_settles ts :
  Forall (fun t => forall n1 n2,
            Transformer_SetNotifiee n2 (Transformer_SetNotifiee n1 t).1
            = Transformer_SetNotifiee n2 t) ts ->
  forall n1 n2 i,
    range_SetNotifiee n2 i (range_SetNotifiee n1 i ts).1 = range_SetNotifiee n2 i ts.
Proof.
  induction 1 as [|t ts Ht Hts IH]; intros n1 n2 i; [reflexivity|].
  rewrite (range_SetNotifiee_cons n1). simpl fst.
  rewrite !range_SetNotifiee_cons. by rewrite Ht, IH.
Qed.

Lemma Transformer_settles t : forall n1 n2,
  Transformer_SetNotifiee n2 (Transformer_SetNotifiee n1 t).1
  = Transformer_SetNotifiee n2 t.
Proof.
  induction t as [m owned IH] using Transformer_nested_ind. intros n1 n2.
  rewrite (Transformer_SetNotifiee_unfold n1). simpl fst.
  rewrite !Transformer_SetNotifiee_unfold.
  by rewrite (range_settles owned IH n1 n2 0%nat).
Qed.

(** X12: the last sink wins: setting a notifiee on a fetcher that was given
    another one before leaves the same fetcher, and assigns the same stages
    in the same order, as setting it on the fetcher as decoded. *)
Theorem SetNotifiee_last_wins f n1 n2 :
  SetNotifiee (SetNotifiee f n1).1 n2 = SetNotifiee f n2.
Proof.
  assert (range_SetNotifiee n2 0 (range_SetNotifiee n1 0 (Transformers f)).1
          = range_SetNotifiee n2 0 (Transformers f)) as Hrange.
  { apply range_settles. apply Forall_forall. intros t _. apply Transformer_settles. }
  unfold SetNotifiee at 2.
  destruct (range_SetNotifiee n1 0 (Transformers f)) as [ts1 log1] eqn:H1.
  unfold SetNotifiee. simpl in *. rewrite Hrange.
  destruct (range_SetNotifiee n2 0 (Transformers f)) as [ts2 log2]. reflexivity.
Qed.

End NotifieeFurther.

(** ** The controller: creation, deletion, showing, listing *)

Section ControllerFurther.
Import Errors Web.
Context `{Specs}.

Local Ltac wrong_status :=
  let Hs := fresh "Hs" in intros Hs; vm_compute in Hs; discriminate Hs.

Lemma Create_answers_200_iff app c :
  (status (Create app c) = 200%Z <->
   exists jsr,
     ShouldBindJSON c = inr jsr
     /\ requireImplemented app (NewJobFromRequest jsr) = None
     /\ ValidateJob app (NewJobFromRequest jsr) = None
     /\ NotifyExternalInitiator app (NewJobFromRequest jsr) = None
     /\ AddJob app (NewJobFromRequest jsr) = None)
  /\ (status (Create app c) = 200%Z ->
      exists jsr, ShouldBindJSON c = inr jsr
                  /\ payload (Create app c) = PayloadJob (NewJobFromRequest jsr)).
Proof.
  unfold Create, getAndCheckJobSpec.
  destruct (ShouldBindJSON c) as [e|jsr]; simpl.
  { split; [split|]; [wrong_status | intros (? & Hb & _); discriminate Hb | wrong_status]. }
  destruct (requireImplemented app (NewJobFromRequest jsr)) as [e|] eqn:Hg; simpl.
  { split; [split|]; [wrong_status | intros (? & Hb & Hr & _) | wrong_status].
    inversion Hb; subst. congruence. }
  destruct (ValidateJob app (NewJobFromRequest jsr)) as [e|] eqn:Hv; simpl.
  { split; [split|]; [wrong_status | intros (? & Hb & _ & Hv' & _) | wrong_status].
    inversion Hb; subst. congruence. }
  destruct (NotifyExternalInitiator app (NewJobFromRequest jsr)) as [e|] eqn:Hn; simpl.
  { split; [split|]; [wrong_status | intros (? & Hb & _ & _ & Hn' & _) | wrong_status].
    inversion Hb; subst. congruence. }
  destruct (AddJob app (NewJobFromRequest jsr)) as [e|] eqn:Ha; simpl.
  { split; [split|]; [wrong_status | intros (? & Hb & _ & _ & _ & Ha') | wrong_status].
    inversion Hb; subst. congruence. }
  split; [split|]; eauto 10.
Qed.

Lemma Create_first_failure app c :
  (forall e, ShouldBindJSON c = inl e ->
     Create app c = {| status := 400; payload := PayloadError e |})
  /\ (forall jsr, ShouldBindJSON c = inr jsr ->
      (forall e, requireImplemented app (NewJobFromRequest jsr) = Some e ->
         Create app c = {| status := 501; payload := PayloadError e |})
      /\ (forall e, requireImplemented app (NewJobFromRequest jsr) = None ->
           ValidateJob app (NewJobFromRequest jsr) = Some e ->
           Create app c = {| status := 400; payload := PayloadError e |})
      /\ (forall e, requireImplemented app (NewJobFromRequest jsr) = None ->
           ValidateJob app (NewJobFromRequest jsr) = None ->
           NotifyExternalInitiator app (NewJobFromRequest jsr) = Some e ->
           Create app c = {| status := 500; payload := PayloadError e |})
      /\ (forall e, requireImplemented app (NewJobFromRequest jsr) = None ->
           ValidateJob app (NewJobFromRequest jsr) = None ->
           NotifyExternalInitiator app (NewJobFromRequest jsr) = None ->
           AddJob app (NewJobFromRequest jsr) = Some e ->
           Create app c = {| status := 500; payload := PayloadError e |})).
Proof.
  unfold Create, getAndCheckJobSpec. split.
  - by intros e ->.
  - intros jsr ->. repeat split.
    + by intros e ->.
    + by intros e -> ->.
    + by intros e -> -> ->.
    + by intros e -> -> -> ->.
Qed.

(** X13: [Create] answers 200 exactly when the body binds, the feature is
    enabled for the job, validation passes, the external initiator is
    notified and the job is added, in that order: the payload is then the
    job made from the request, and otherwise the answer is that of the
    first of these steps to fail (400 for the binding, 501 for the feature
    check, 400 for validation, 500 for the notification and for the
    addition), whatever the later steps would have given. *)
Theorem Create_succeeds_iff app c :
  ((status (Create app c) = 200%Z <->
    exists jsr,
      ShouldBindJSON c = inr jsr
      /\ requireImplemented app (NewJobFromRequest jsr) = None
      /\ ValidateJob app (NewJobFromRequest jsr) = None
      /\ NotifyExternalInitiator app (NewJobFromRequest jsr) = None
      /\ AddJob app (NewJobFromRequest jsr) = None)
   /\ (status (Create app c) = 200%Z ->
       exists jsr, ShouldBindJSON c = inr jsr
                   /\ payload (Create app c) = PayloadJob (NewJobFromRequest jsr)))
  /\ (forall e, ShouldBindJSON c = inl e ->
        Create app c = {| status := 400; payload := PayloadError e |})
  /\ (forall jsr, ShouldBindJSON c = inr jsr ->
      (forall e, requireImplemented app (NewJobFromRequest jsr) = Some e ->
         Create app c = {| status := 501; payload := PayloadError e |})
      /\ (forall e, requireImplemented app (NewJobFromRequest jsr) = None ->
           ValidateJob app (NewJobFromRequest jsr) = Some e ->
           Create app c = {| status := 400; payload := PayloadError e |})
      /\ (forall e, requireImplemented app (NewJobFromRequest jsr) = None ->
           ValidateJob app (NewJobFromRequest jsr) = None ->
           NotifyExternalInitiator app (NewJobFromRequest jsr) = Some e ->
           Create app c = {| status := 500; payload := PayloadError e |})
      /\ (forall e, requireImplemented app (NewJobFromRequest jsr) = None ->
           ValidateJob app (NewJobFromRequest jsr) = None ->
           NotifyExternalInitiator app (NewJobFromRequest jsr) = None ->
           AddJob app (NewJobFromRequest jsr) = Some e ->
           Create app c = {| status := 500; payload := PayloadError e |})).
Proof.
  split; [apply Create_answers_200_iff | apply Create_first_failure].
Qed.

(** X14: a body that does not bind is answered 400 with the binding error,
    whatever the configuration and the collaborators: binding comes before
    the feature check. *)
Theorem Create_rejects_unbound_body app c e :
  ShouldBindJSON c = inl e ->
  Create app c = {| status := 400; payload := PayloadError e |}.
Proof. intros Hbind. unfold Create, getAndCheckJobSpec. by rewrite Hbind. Qed.

(** X15: once a job has passed the checks, a failure to notify the
    external initiator or to add the job is answered 500 with that error;
    when the notification fails the job is not added, so the answer does not
    depend on what adding it would have given. *)
Theorem Create_reports_late_failures_as_500 app c js :
  getAndCheckJobSpec app c = (js, 0%Z, None) ->
  (forall e, NotifyExternalInitiator app js = Some e ->
     Create app c = {| status := 500; payload := PayloadError e |})
  /\ (forall e, NotifyExternalInitiator app js = None -> AddJob app js = Some e ->
        Create app c = {| status := 500; payload := PayloadError e |}).
Proof.
  intros Hcheck. unfold Create. rewrite Hcheck. split.
  - by intros e ->.
  - by intros e -> ->.
Qed.

(** X16: the V1 feature check refuses a job exactly when dev mode is off,
    the flux-monitor flag is off and the job has a flux-monitor initiator. *)
Theorem requireImplemented_refuses_iff app js :
  is_Some (requireImplemented app js) <->
  Dev app = false /\ FeatureFluxMonitor app = false
  /\ InitiatorsFor js InitiatorFluxMonitor <> [].
Proof.
  unfold requireImplemented.
  destruct (Dev app), (FeatureFluxMonitor app),
    (InitiatorsFor js InitiatorFluxMonitor); simpl;
    (split; [intros [? ?]; try discriminate; done
            | intros (? & ? & ?); try discriminate; try done; eauto]).
Qed.

(** X17: a [:SpecID] that is no identifier is answered 422 with the parse
    error by [Destroy] and by [Show] alike, whatever the store holds. *)
Theorem malformed_id_is_unprocessable app b c e :
  NewIDFromString (Param c "SpecID") = inl e ->
  Destroy app c = {| status := 422; payload := PayloadError e |}
  /\ Show b c = ReplyError 422 e.
Proof. intros Hid. unfold Destroy, Show. by rewrite Hid. Qed.

(** X18: a [:SpecID] that [strconv.Atoi] refuses is answered 422 with its
    error by [DestroyV2], whatever the store holds. *)
Theorem DestroyV2_rejects_non_numeric_id app c jobID e :
  Atoi (Param c "SpecID") = (jobID, Some e) ->
  DestroyV2 app c = {| status := 422; payload := PayloadError e |}.
Proof. intros Hid. unfold DestroyV2. by rewrite Hid. Qed.

(** X19: the conversion to [int32] yields a value within the 32-bit range
    that differs from its argument by a multiple of 2^32, and is the
    argument itself when that is in range. *)
Theorem int32_wraps z :
  (- 2 ^ 31 <= int32 z < 2 ^ 31)%Z
  /\ ((int32 z - z) mod 2 ^ 32 = 0)%Z
  /\ ((- 2 ^ 31 <= z < 2 ^ 31)%Z -> int32 z = z).
Proof.
  unfold int32. split; [|split].
  - pose proof (Z.mod_pos_bound (z + 2 ^ 31) (2 ^ 32)) as Hb. lia.
  - rewrite (Z.mod_eq (z + 2 ^ 31) (2 ^ 32)) by lia.
    replace (z + 2 ^ 31 - 2 ^ 32 * ((z + 2 ^ 31) / 2 ^ 32) - 2 ^ 31 - z)%Z
      with (- ((z + 2 ^ 31) / 2 ^ 32) * 2 ^ 32)%Z by lia.
    apply Z.mod_mul. lia.
  - intros Hz. rewrite Z.mod_small by lia. lia.
Qed.

(** X20: [DestroyV2] hands the store the identifier cut down to 32 bits:
    two requests whose identifiers differ by a multiple of 2^32 are answered
    alike. *)
Theorem DestroyV2_wraps_identifier app c c' jobID jobID' :
  Atoi (Param c "SpecID") = (jobID, None) ->
  Atoi (Param c' "SpecID") = (jobID', None) ->
  ((jobID - jobID') mod 2 ^ 32 = 0)%Z ->
  DestroyV2 app c = DestroyV2 app c'.
Proof.
  intros Hid Hid' Hcong. unfold DestroyV2. rewrite Hid, Hid'.
  assert (int32 jobID = int32 jobID') as ->; [|reflexivity].
  unfold int32. f_equal.
  apply Z.mod_divide in Hcong as [k Hk]; [|lia].
  replace (jobID + 2 ^ 31)%Z with (jobID' + 2 ^ 31 + k * 2 ^ 32)%Z by lia.
  apply Z.mod_add. lia.
Qed.

(** X21: a deletion is answered 204 exactly when the identifier parses and
    the store reports no error; every other answer is 404, 422 or 500. *)
Theorem deletion_succeeds_iff app c :
  (status (Destroy app c) = 204%Z <->
   exists id, NewIDFromString (Param c "SpecID") = inr id /\ ArchiveJob app id = None)
  /\ (status (DestroyV2 app c) = 204%Z <->
      exists jobID, Atoi (Param c "SpecID") = (jobID, None)
                    /\ DeleteJobV2 app (int32 jobID) = None)
  /\ status (Destroy app c) ∈ [204; 404; 422; 500]%Z
  /\ status (DestroyV2 app c) ∈ [204; 404; 422; 500]%Z.
Proof.
  unfold Destroy, DestroyV2.
  destruct (NewIDFromString (Param c "SpecID")) as [e|id];
    destruct (Atoi (Param c "SpecID")) as [jobID [e'|]]; simpl;
    try destruct (ArchiveJob app id) as [e1|] eqn:Ha; simpl;
    try destruct (DeleteJobV2 app (int32 jobID)) as [e2|] eqn:Hd; simpl;
    repeat case_bool_decide; simpl;
    (split; [split; [first [wrong_status | eauto]
                       | first [ by intros (? & Hb & Hs); inversion Hb; subst; congruence
                               | reflexivity ]]|]);
    (split; [split; [first [wrong_status | eauto]
                       | first [ by intros (? & Hb & Hs); inversion Hb; subst; congruence
                               | reflexivity ]]|]);
    split; vm_compute; set_solver.
Qed.

(** X22: [Show] follows the store's answer for an identifier that parses:
    an error whose cause is the not-found error gives 404, any other error
    500, and no error the job with its errors and its earnings; an error
    from the earnings look-up is dropped and the job is shown all the same. *)
Theorem Show_classifies b c id j err :
  NewIDFromString (Param c "SpecID") = inr id ->
  FindJobWithErrors b id = (j, err) ->
  Show b c =
    match err with
    | None => ReplyJob {| Job := j; JobErrors := Errors j;
                          Earnings := (LinkEarnedFor b j).1 |}
    | Some e =>
        if bool_decide (Cause e = Sentinel ErrorNotFound)
        then ReplyError 404 (New "JobSpec not found")
        else ReplyError 500 e
    end.
Proof.
  intros Hid Hfind. unfold Show, showJobPresenter. rewrite Hid, Hfind.
  destruct err as [e|]; simpl.
  - repeat case_bool_decide; try reflexivity; congruence.
  - by destruct (LinkEarnedFor b j).
Qed.

(** X23: the checks return a job exactly when they return no error, and
    the status is set exactly when there is an error: 400 or 501 for V1,
    400, 500 or 501 for V2, and then the job is the zero job, or nil. *)
Theorem checks_return_job_or_status app c r :
  match getAndCheckJobSpec app c with
  | (js, httpStatus, None) => httpStatus = 0%Z
  | (js, httpStatus, Some _) => js = zeroJobSpec /\ httpStatus ∈ [400; 501]%Z
  end
  /\ match getAndCheckJobSpecV2 app r with
     | (js, httpStatus, None) => is_Some js /\ httpStatus = 0%Z
     | (js, httpStatus, Some _) => js = None /\ httpStatus ∈ [400; 500; 501]%Z
     end.
Proof.
  split.
  - unfold getAndCheckJobSpec.
    destruct (ShouldBindJSON c); [|destruct (requireImplemented _ _);
                                   [|destruct (ValidateJob _ _)]];
      try reflexivity; (split; [reflexivity | vm_compute; set_solver]).
  - unfold getAndCheckJobSpecV2.
    destruct (ReadAllBody r) as [body [e|]];
      [|destruct (tomlUnmarshal body); [|destruct (requireImplementedV2 _ _)]];
      try (split; [reflexivity | vm_compute; set_solver]).
    split; [eauto | reflexivity].
Qed.

(** X24: the V2 feature check refuses a spec exactly when it is an
    offchain-reporting job and dev mode and the offchain-reporting flag are
    both off. *)
Theorem requireImplementedV2_refuses_iff app js :
  is_Some (requireImplementedV2 app js) <->
  JobType js = OffchainReportingJobType
  /\ Dev app = false /\ FeatureOffchainReporting app = false.
Proof.
  unfold requireImplementedV2. case_bool_decide as Hty;
    destruct (Dev app), (FeatureOffchainReporting app); simpl;
    (split; [intros [? ?]; try discriminate; done
            | intros (? & ? & ?); try discriminate; try done; eauto]).
Qed.

(** X25: [CreateV2] answers with a job ID exactly when the body is read,
    decodes, passes the feature check and is added; the ID is the one the
    application assigned. *)
Theorem CreateV2_succeeds_iff app b c jobID :
  CreateV2 app b c = ReplyJobID jobID <->
  exists body spec,
    ReadAllBody c = (body, None)
    /\ tomlUnmarshal body = inr spec
    /\ requireImplementedV2 app spec = None
    /\ AddJobV2 b (Some spec) = (jobID, None).
Proof.
  unfold CreateV2, getAndCheckJobSpecV2.
  destruct (ReadAllBody c) as [body [e|]] eqn:Hread.
  { split; [discriminate | intros (? & ? & Hr & _); discriminate Hr]. }
  destruct (tomlUnmarshal body) as [e|spec] eqn:Htoml.
  { split; [discriminate | intros (? & ? & Hr & Ht & _)].
    inversion Hr; subst. congruence. }
  destruct (requireImplementedV2 app spec) as [e|] eqn:Hgate.
  { split; [discriminate | intros (? & ? & Hr & Ht & Hg & _)].
    inversion Hr; subst. rewrite Htoml in Ht. inversion Ht; subst. congruence. }
  destruct (AddJobV2 b (Some spec)) as [jobID' [e|]] eqn:Hadd.
  { split; [discriminate | intros (? & ? & Hr & Ht & _ & Ha)].
    inversion Hr; subst. rewrite Htoml in Ht. inversion Ht; subst. congruence. }
  split.
  - intros Hreply. inversion Hreply; subst. eauto 10.
  - intros (? & ? & Hr & Ht & _ & Ha).
    inversion Hr; subst. rewrite Htoml in Ht. inversion Ht; subst. congruence.
Qed.

(** X26: [Index] asks the store for the jobs newest first exactly when the
    [sort] query is "-createdAt", and oldest first for any other value; it
    passes offset and size through and presents the jobs it is given, bare
    and in the store's order, with the store's count and error. *)
Theorem Index_sorts_and_presents b c size page offset :
  exists pjs,
    Index b c size page offset
    = ReplyPage "Jobs" size page pjs
        (JobsSorted b (if bool_decide (Query c "sort" = "-createdAt")
                       then Descending else Ascending) offset size).1.2
        (JobsSorted b (if bool_decide (Query c "sort" = "-createdAt")
                       then Descending else Ascending) offset size).2
    /\ Job <$> pjs
       = (JobsSorted b (if bool_decide (Query c "sort" = "-createdAt")
                        then Descending else Ascending) offset size).1.1
    /\ Forall (fun p => JobErrors p = [] /\ Earnings p = None) pjs.
Proof.
  unfold Index.
  destruct (JobsSorted b _ offset size) as [[jobs count] err]. simpl.
  eexists. split; [reflexivity|]. split.
  - induction jobs as [|j jobs IH]; [reflexivity|].
    rewrite !fmap_cons. simpl. f_equal. exact IH.
  - induction jobs as [|j jobs IH]; [constructor|].
    rewrite fmap_cons. constructor; [by split | exact IH].
Qed.

End ControllerFurther.

Section ControllerFurtherExamples.
Import Errors Web.

Lemma Create_rejects_unbound_body_witness :
  Create (exampleApp false false) unboundContext
  = {| status := 400; payload := PayloadError (New "unexpected EOF") |}.
Proof.
  exact (Create_rejects_unbound_body (H := exampleModels) (exampleApp false false)
           unboundContext (New "unexpected EOF") eq_refl).
Defined.

Lemma Create_reports_late_failures_as_500_witness :
  Create saturatedApp (exampleContext ["web"] "")
  = {| status := 500; payload := PayloadError (New "disk full") |}.
Proof.
  exact (proj2 (Create_reports_late_failures_as_500 (H := exampleModels) saturatedApp
                  (exampleContext ["web"] "") ["web"] eq_refl)
           (New "disk full") eq_refl eq_refl).
Defined.

Lemma malformed_id_is_unprocessable_witness :
  Destroy (exampleApp false false) (exampleContext [] "")
  = {| status := 422; payload := PayloadError (New "invalid id") |}
  /\ Show exampleBackend (exampleContext [] "") = ReplyError 422 (New "invalid id").
Proof.
  exact (malformed_id_is_unprocessable (H0 := exampleSpecs) (exampleApp false false)
           exampleBackend (exampleContext [] "") (New "invalid id") eq_refl).
Defined.

Lemma DestroyV2_rejects_non_numeric_id_witness :
  DestroyV2 (exampleApp false false) (exampleContext [] "job-1")
  = {| status := 422; payload := PayloadError (New "strconv.Atoi: invalid syntax") |}.
Proof.
  exact (DestroyV2_rejects_non_numeric_id (H := exampleModels) (exampleApp false false)
           (exampleContext [] "job-1") 0%Z (New "strconv.Atoi: invalid syntax") eq_refl).
Defined.

Lemma DestroyV2_wraps_identifier_witness :
  DestroyV2 (exampleApp false false) (exampleContext [] "4294967297")
  = DestroyV2 (exampleApp false false) (exampleContext [] "1").
Proof.
  exact (DestroyV2_wraps_identifier (H := exampleModels) (exampleApp false false)
           (exampleContext [] "4294967297") (exampleContext [] "1")
           4294967297%Z 1%Z eq_refl eq_refl eq_refl).
Defined.

Lemma Show_classifies_witness :
  Show exampleBackend (exampleContext [] "job-1")
  = ReplyJob (H0 := exampleSpecs)
      {| Job := ["web"] : @JobSpec exampleModels; JobErrors := []; Earnings := None |}
  /\ Show exampleBackend (exampleContext [] "job-7")
     = ReplyError 404 (New "JobSpec not found")
  /\ Show exampleBackend (exampleContext [] "broken")
     = ReplyError 500 (New "connection refused").
Proof.
  refine (conj _ (conj _ _)).
  - exact (Show_classifies (H0 := exampleSpecs) exampleBackend
             (exampleContext [] "job-1") "job-1" ["web"] None eq_refl eq_refl).
  - exact (Show_classifies (H0 := exampleSpecs) exampleBackend
             (exampleContext [] "job-7") "job-7" []
             (Some (Wrapf (Sentinel ErrorNotFound) "find job")) eq_refl eq_refl).
  - exact (Show_classifies (H0 := exampleSpecs) exampleBackend
             (exampleContext [] "broken") "broken" []
             (Some (New "connection refused")) eq_refl eq_refl).
Defined.

End ControllerFurtherExamples.

(** ** Deleting a V2 job that does not exist *)

Section DeletionDefect.
Import Errors Web.

(** C6: the code departs from the claim at [DELETE /specs/v2/4294967297]
    against a store that holds job 1 and reports 4294967297 as not found:
    the identifier parses, the conversion to [int32] cuts it down to 1, the
    store is asked to delete job 1, and the answer is 204 where the claim
    has 404. *)
Theorem DestroyV2_deletes_another_job :
  Atoi "4294967297" = (4294967297%Z, None)
  /\ CauseOpt (DeleteJobV2 (exampleApp false false) 4294967297%Z)
     = Some (Sentinel ErrorNotFound)
  /\ int32 4294967297 = 1%Z
  /\ DeleteJobV2 (exampleApp false false) 1%Z = None
  /\ DestroyV2 (exampleApp false false) (exampleContext [] "4294967297")
     = {| status := 204; payload := PayloadNil |}
  /\ status (DestroyV2 (exampleApp false false) (exampleContext [] "4294967297"))
     <> StatusNotFound.
Proof.
  refine (conj _ (conj _ (conj _ (conj _ (conj _ _))))); try (vm_compute; reflexivity).
  vm_compute. discriminate.
Qed.

End DeletionDefect.
